(** * Video game scoring system: players, validators and the leaderboard

    A shallow embedding of [player_class.py] and [score_manager.py].

    Conventions of the embedding.
    - A Python [int] is a [Z] (unbounded).  The interpreter's optional cap on
      the number of digits that [int()] and [str()] accept is a run-time
      setting and is not part of the model.
    - A Python [str] is a [list ascii]: the code points below 256.
    - [Leaderboard.players] is a [dict]; it keeps insertion order, and the
      ranking sorts its [values()] stably, so it is an association list in
      insertion order whose keys are kept distinct by [dict_set].
    - The file named by [Leaderboard.filename] is an [option] of its text
      ([None]: the file does not exist).  It is written and read on a POSIX
      system (a written line feed stays a line feed); reading is in text mode
      with universal newlines.  Failing I/O calls are not modelled.
    - [print] calls only emit diagnostics and are left out. *)

From Stdlib Require Import String.
From Stdlib Require Import ZArith List Bool Ascii Lia Permutation Sorted.
Import ListNotations.
Local Open Scope Z_scope.

(** ** Python built-ins on strings and integers *)

Definition str := list ascii.

Definition S_ (s : string) : str := list_ascii_of_string s.

Definition code (c : ascii) : N := N_of_ascii c.

Definition LF : ascii := ascii_of_N 10.
Definition CR : ascii := ascii_of_N 13.

Fixpoint str_eqb (a b : str) : bool :=
  match a, b with
  | [], [] => true
  | x :: a', y :: b' => Ascii.eqb x y && str_eqb a' b'
  | _, _ => false
  end.

(** [c.isspace()]: the characters [str.strip()] removes. *)
Definition is_space (c : ascii) : bool :=
  let n := code c in
  ((9 <=? n) && (n <=? 13) || (28 <=? n) && (n <=? 32)
   || (n =? 133) || (n =? 160))%N.

(** The blanks [int()] skips around a literal: the separators 28 to 31 are
    whitespace for [strip] and not for [int]. *)
Definition is_int_space (c : ascii) : bool :=
  let n := code c in
  ((9 <=? n) && (n <=? 13) || (n =? 32) || (n =? 133) || (n =? 160))%N.

Fixpoint drop_while (f : ascii -> bool) (s : str) : str :=
  match s with
  | [] => []
  | c :: s' => if f c then drop_while f s' else s
  end.

Definition strip_with (f : ascii -> bool) (s : str) : str :=
  rev (drop_while f (rev (drop_while f s))).

(** [s.strip()] *)
Definition strip (s : str) : str := strip_with is_space s.

(** [s.split(sep)] for a one-character separator. *)
Fixpoint split (sep : ascii) (s : str) : list str :=
  match s with
  | [] => [[]]
  | c :: s' =>
      if Ascii.eqb c sep then [] :: split sep s'
      else match split sep s' with
           | [] => [[c]]
           | w :: ws => (c :: w) :: ws
           end
  end.

(** [sep.join(parts)] *)
Fixpoint join (sep : str) (parts : list str) : str :=
  match parts with
  | [] => []
  | [w] => w
  | w :: ws => w ++ sep ++ join sep ws
  end.

Definition is_digit (c : ascii) : bool :=
  ((48 <=? code c) && (code c <=? 57))%N.

Definition digit_val (c : ascii) : Z := Z.of_N (code c) - 48.

(** The digits of an [int()] literal: decimal digits, with single underscores
    allowed between two digits.  [prev] tells whether the previous character
    was a digit; [None] is the [ValueError]. *)
Fixpoint int_digits (s : str) (acc : Z) (prev : bool) : option Z :=
  match s with
  | [] => if prev then Some acc else None
  | c :: s' =>
      if is_digit c then int_digits s' (10 * acc + digit_val c) true
      else if Ascii.eqb c "_" && prev then int_digits s' acc false
      else None
  end.

(** [int(s)] for a [str]: blanks around, an optional sign, the digits. *)
Definition py_int (s : str) : option Z :=
  match strip_with is_int_space s with
  | [] => None
  | c :: s' =>
      if Ascii.eqb c "-" then option_map Z.opp (int_digits s' 0 false)
      else if Ascii.eqb c "+" then int_digits s' 0 false
      else int_digits (c :: s') 0 false
  end.

Definition digit_char (d : N) : ascii := ascii_of_N (48 + d).

Fixpoint N_digits (fuel : nat) (n : N) (acc : str) : str :=
  match fuel with
  | O => acc
  | S f =>
      let acc' := digit_char (n mod 10) :: acc in
      if (n / 10 =? 0)%N then acc' else N_digits f (n / 10) acc'
  end.

Definition str_of_N (n : N) : str :=
  N_digits (S (N.to_nat (N.log2 n))) n [].

(** [str(z)] for an [int]. *)
Definition str_of_Z (z : Z) : str :=
  if z <? 0 then "-"%char :: str_of_N (Z.to_N (- z)) else str_of_N (Z.to_N z).

(** [l[:n]] *)
Definition slice_to {A : Type} (n : Z) (l : list A) : list A :=
  let len := Z.of_nat (length l) in
  let stop := if n <? 0 then Z.max 0 (n + len) else Z.min n len in
  firstn (Z.to_nat stop) l.

(** [f.readlines()] of a text file opened with universal newlines: a carriage
    return, alone or before a line feed, reads as a line feed, and every line
    keeps its line feed. *)
Fixpoint universal_newlines (s : str) : str :=
  match s with
  | [] => []
  | c :: s' =>
      if Ascii.eqb c CR then
        LF :: match s' with
              | d :: s'' => if Ascii.eqb d LF then universal_newlines s''
                            else universal_newlines s'
              | [] => []
              end
      else c :: universal_newlines s'
  end.

Fixpoint keep_lines (s : str) : list str :=
  match s with
  | [] => []
  | c :: s' =>
      if Ascii.eqb c LF then [LF] :: keep_lines s'
      else match keep_lines s' with
           | [] => [[c]]
           | l :: ls => (c :: l) :: ls
           end
  end.

Definition readlines (text : str) : list str :=
  keep_lines (universal_newlines text).

(** [datetime.now()] and [strftime('%Y-%m-%d %H:%M:%S')]: the fields in
    decimal, padded with zeros to four places for the year and two for the
    others. *)
Record datetime := mkDatetime {
  year : N; month : N; day : N; hour : N; minute : N; second : N
}.

Definition zero_pad (width : nat) (s : str) : str :=
  repeat "0"%char (width - length s) ++ s.

Definition strftime (t : datetime) : str :=
  zero_pad 4 (str_of_N (year t)) ++ S_ "-" ++
  zero_pad 2 (str_of_N (month t)) ++ S_ "-" ++
  zero_pad 2 (str_of_N (day t)) ++ S_ " " ++
  zero_pad 2 (str_of_N (hour t)) ++ S_ ":" ++
  zero_pad 2 (str_of_N (minute t)) ++ S_ ":" ++
  zero_pad 2 (str_of_N (second t)).

(** ** player_class.py *)

Record Player := mkPlayer {
  name : str;
  score : Z;
  games_played : Z;
  best_score : Z;
  score_history : list Z;
  current_streak : Z
}.

(** [Player.__init__(self, name, score)] *)
Definition Player_init (nm : str) (sc : Z) : Player :=
  {| name := nm;
     score := sc;
     games_played := 1;
     best_score := sc;
     score_history := [sc];
     current_streak := 0 |}.

(** [Player.update_score(self, new_score)] *)
Definition update_score (p : Player) (new_score : Z) : Player :=
  let p1 := {| name := name p;
               score := new_score;
               games_played := games_played p + 1;
               best_score := best_score p;
               score_history := score_history p ++ [new_score];
               current_streak := current_streak p |} in
  if best_score p1 <? new_score then
    {| name := name p1;
       score := score p1;
       games_played := games_played p1;
       best_score := new_score;
       score_history := score_history p1;
       current_streak := current_streak p1 + 1 |}
  else
    {| name := name p1;
       score := score p1;
       games_played := games_played p1;
       best_score := best_score p1;
       score_history := score_history p1;
       current_streak := 0 |}.

(** A record reached by [create] followed by the updates [scores], in order. *)
Definition after_updates (nm : str) (sc : Z) (scores : list Z) : Player :=
  fold_left update_score scores (Player_init nm sc).

(** Python's [max] of a non-empty list; [None] stands for the [ValueError]
    on an empty one. *)
Definition py_max (l : list Z) : option Z :=
  match l with
  | [] => None
  | x :: xs => Some (fold_left Z.max xs x)
  end.

(** The four invariants of the data model. *)
Definition invariants (p : Player) : Prop :=
  score_history p <> [] /\
  Z.of_nat (length (score_history p)) = games_played p /\
  py_max (score_history p) = Some (best_score p) /\
  (exists pre, score_history p = pre ++ [score p]).

(** ** score_manager.py: ScoreValidator *)

(** What the callers hand to [add_score] as a score: the text typed at the
    console, or an [int] of the sample data. *)
Inductive raw_score :=
| RawStr (s : str)
| RawInt (z : Z).

(** [int(score)]; [None] is the [ValueError]. *)
Definition int_of_raw (r : raw_score) : option Z :=
  match r with
  | RawStr s => py_int s
  | RawInt z => Some z
  end.

(** [ScoreValidator.validate_score(score)] *)
Definition validate_score (r : raw_score) : bool :=
  match int_of_raw r with
  | Some sc =>
      if sc <? 0 then false
      else if 10000 <? sc then false
      else true
  | None => false
  end.

(** [ScoreValidator.validate_name(name)] *)
Definition validate_name (nm : str) : bool :=
  if match nm with [] => true | _ => false end
     || (length (strip nm) =? 0)%nat then false
  else if (20 <? length nm)%nat then false
  else true.

(** ** score_manager.py: Leaderboard *)

(** The [dict] of players, in insertion order. *)
Definition dict := list (str * Player).

(** [name in d] and [d[name]] *)
Fixpoint dict_get (k : str) (d : dict) : option Player :=
  match d with
  | [] => None
  | (k', v) :: d' => if str_eqb k k' then Some v else dict_get k d'
  end.

(** [d[name] = v]: an existing key keeps its place, a new one goes last. *)
Fixpoint dict_set (k : str) (v : Player) (d : dict) : dict :=
  match d with
  | [] => [(k, v)]
  | (k', v') :: d' =>
      if str_eqb k k' then (k', v) :: d' else (k', v') :: dict_set k v d'
  end.

(** [d.values()] *)
Definition dict_values (d : dict) : list Player := map snd d.

(** The leaderboard object together with the file its [filename] names. *)
Record Leaderboard := mkLeaderboard {
  players : dict;
  disk : option str
}.

(** [sorted(values, key=lambda player: player.score, reverse=True)]: Python's
    sort is stable, also with [reverse=True], and a stable sort has one
    result; it is computed here by insertion. *)
Fixpoint insert_desc (x : Player) (l : list Player) : list Player :=
  match l with
  | [] => [x]
  | y :: l' =>
      if score x <? score y then y :: insert_desc x l' else x :: y :: l'
  end.

Definition sorted_desc (l : list Player) : list Player :=
  fold_right insert_desc [] l.

(** [Leaderboard.get_top_players(self, n)] *)
Definition get_top_players (n : Z) (lb : Leaderboard) : list Player :=
  slice_to n (sorted_desc (dict_values (players lb))).

(** The two header lines and the line of one player, as [save_leaderboard]
    writes them. *)
Definition header (now : datetime) : str :=
  S_ "Leaderboard - Updated: " ++ strftime now ++ [LF] ++
  repeat "="%char 60 ++ [LF].

Definition player_fields (p : Player) : str :=
  name p ++ S_ "|" ++ str_of_Z (score p) ++ S_ "|" ++
  str_of_Z (games_played p) ++ S_ "|" ++
  str_of_Z (best_score p) ++ S_ "|" ++
  join (S_ ",") (map str_of_Z (score_history p)).

Definition player_line (p : Player) : str := player_fields p ++ [LF].

Definition file_text (now : datetime) (ps : list Player) : str :=
  header now ++ concat (map player_line ps).

(** [Leaderboard.save_leaderboard(self)]: mode ['w'] replaces the text. *)
Definition save_leaderboard (now : datetime) (lb : Leaderboard) : Leaderboard :=
  {| players := players lb;
     disk := Some (file_text now (get_top_players 10 lb)) |}.

(** [list(map(int, parts))] *)
Fixpoint map_int (parts : list str) : option (list Z) :=
  match parts with
  | [] => Some []
  | w :: ws =>
      match py_int w, map_int ws with
      | Some z, Some zs => Some (z :: zs)
      | _, _ => None
      end
  end.

(** The body of the loop of [load_leaderboard] on one stripped line; [None]
    is any exception ([IndexError] on a missing part, [ValueError] of
    [int]). *)
Definition parse_line (stripped : str) : option Player :=
  let parts := split "|" stripped in
  match nth_error parts 0, nth_error parts 1, nth_error parts 2,
        nth_error parts 3, nth_error parts 4 with
  | Some nm, Some p1, Some p2, Some p3, Some p4 =>
      match py_int p1, py_int p2, py_int p3, map_int (split "," p4) with
      | Some sc, Some gp, Some bs, Some hist =>
          let player := Player_init nm sc in
          Some {| name := name player;
                  score := score player;
                  games_played := gp;
                  best_score := bs;
                  score_history := hist;
                  current_streak := current_streak player |}
      | _, _, _, _ => None
      end
  | _, _, _, _, _ => None
  end.

(** The loop of [load_leaderboard] inside its [try]: the players so far, and
    [false] when a line raised (the [except] branch was taken). *)
Fixpoint load_lines (lines : list str) (ps : dict) : dict * bool :=
  match lines with
  | [] => (ps, true)
  | line :: rest =>
      match strip line with
      | [] => load_lines rest ps
      | stripped =>
          match parse_line stripped with
          | Some p => load_lines rest (dict_set (name p) p ps)
          | None => (ps, false)
          end
      end
  end.

(** The data lines: [f.readlines()[2:]] *)
Definition data_lines (text : str) : list str := skipn 2 (readlines text).

(** [Leaderboard.load_leaderboard(self)] *)
Definition load_leaderboard (lb : Leaderboard) : Leaderboard :=
  match disk lb with
  | None => lb
  | Some text =>
      {| players := fst (load_lines (data_lines text) (players lb));
         disk := disk lb |}
  end.

(** [Leaderboard.__init__(self)]: a fresh leaderboard over the given file. *)
Definition Leaderboard_init (d : option str) : Leaderboard :=
  load_leaderboard {| players := []; disk := d |}.

(** [Leaderboard.add_score(self, name, score)] *)
Definition add_score (now : datetime) (lb : Leaderboard) (nm : str)
    (r : raw_score) : bool * Leaderboard :=
  if negb (validate_name nm) then (false, lb)
  else if negb (validate_score r) then (false, lb)
  else
    match int_of_raw r with
    | None => (false, lb) (* not reached: [validate_score] accepted [r] *)
    | Some sc =>
        let ps :=
          match dict_get nm (players lb) with
          | Some p => dict_set nm (update_score p sc) (players lb)
          | None => dict_set nm (Player_init nm sc) (players lb)
          end in
        (true, save_leaderboard now {| players := ps; disk := disk lb |})
    end.

(** ** Vocabulary of the statements *)

(** Descending order of current score, and the test for one score value
    used to state stability. *)
Definition desc (a b : Player) : Prop := score b <= score a.

Definition has_score (k : Z) (p : Player) : bool := score p =? k.

(** A leaderboard of two players, the lower score first in iteration order. *)
Definition two_players : Leaderboard :=
  {| players := [(S_ "Ann", Player_init (S_ "Ann") 10);
                 (S_ "Ben", Player_init (S_ "Ben") 20)];
     disk := None |}.

(** The value of a run of decimal digits read after [acc]. *)
Definition horner (ds : str) (acc : Z) : Z :=
  fold_left (fun a c => 10 * a + digit_val c) ds acc.

Definition all_digits (s : str) : Prop := Forall (fun c => is_digit c = true) s.

(** [s] has no occurrence of [d]; every character of [s] is in class [P]. *)
Definition lacks (d : ascii) (s : str) : Prop :=
  Forall (fun c => Ascii.eqb c d = false) s.

Definition in_class (P : ascii -> bool) (s : str) : Prop :=
  Forall (fun c => P c = true) s.

(** The characters of a printed integer, and of a comma-joined history. *)
Definition num_char (c : ascii) : bool := is_digit c || Ascii.eqb c "-".
Definition field_char (c : ascii) : bool := num_char c || Ascii.eqb c ",".

Definition ends_with_digit (s : str) : Prop :=
  exists t c, s = t ++ [c] /\ is_digit c = true.

(** A line with its line feed, and the two header lines without theirs. *)
Definition add_LF (l : str) : str := l ++ [LF].

Definition header_line1 (now : datetime) : str :=
  S_ "Leaderboard - Updated: " ++ strftime now.

Definition header_line2 : str := repeat "="%char 60.

(** The characters of a time stamp. *)
Definition stamp_char (c : ascii) : bool :=
  is_digit c || Ascii.eqb c "-" || Ascii.eqb c ":" || Ascii.eqb c " ".

(** An entry whose record has streak 0; a line that [strip] empties. *)
Definition streak_zero (e : str * Player) : Prop := current_streak (snd e) = 0.

Definition blank (line : str) : Prop := strip line = [].

(** The file of the counterexample to C1: a good line, then a bad one. *)
Definition half_read_text : str :=
  file_text (mkDatetime 2024 5 17 9 30 0) [Player_init (S_ "Ann") 10] ++
  S_ "Ben|x|1|20|20" ++ [LF].

(** A run in which Alice reaches streak 1, and her record after a restart. *)
Definition streak_board : Leaderboard :=
  let t := mkDatetime 2024 5 17 9 30 0 in
  let lb0 := Leaderboard_init None in
  let lb1 := snd (add_score t lb0 (S_ "Alice") (RawStr (S_ "100"))) in
  snd (add_score t lb1 (S_ "Alice") (RawStr (S_ "200"))).

Definition reloaded_alice : Player :=
  match dict_get (S_ "Alice") (players (Leaderboard_init (disk streak_board))) with
  | Some p => p
  | None => Player_init [] 0
  end.

(** The record as the file carries it: all fields but the streak. *)
Definition reset_streak (p : Player) : Player :=
  {| name := name p;
     score := score p;
     games_played := games_played p;
     best_score := best_score p;
     score_history := score_history p;
     current_streak := 0 |}.

(** A name that the line format carries: no separator, no line break, no
    white space in front. *)
Definition clean_name (nm : str) : bool :=
  forallb (fun c => negb (Ascii.eqb c "|" || Ascii.eqb c LF || Ascii.eqb c CR)) nm
  && match nm with
     | [] => true
     | c :: _ => negb (is_space c)
     end.

(** What [add_score] and [load_leaderboard] maintain: distinct keys, each
    the name of its record, and no empty history. *)
Definition entry_ok (e : str * Player) : Prop :=
  name (snd e) = fst e /\ score_history (snd e) <> [].

Definition wf_players (d : dict) : Prop :=
  NoDup (map fst d) /\ Forall entry_ok d.

(** [p] is found under its name in [loaded] with the four saved fields; the
    players of a fresh leaderboard built from what [lb] saved. *)
Definition reproduced (loaded : dict) (p : Player) : Prop :=
  exists q, dict_get (name p) loaded = Some q /\
            score q = score p /\ best_score q = best_score p /\
            games_played q = games_played p /\
            score_history q = score_history p.

Definition reloaded (now : datetime) (lb : Leaderboard) : dict :=
  players (Leaderboard_init (disk (save_leaderboard now lb))).

(** A record whose line reads back, and the store of one read record. *)
Definition savable (p : Player) : Prop :=
  clean_name (name p) = true /\ score_history p <> [].

Definition put (d : dict) (p : Player) : dict :=
  dict_set (name p) (reset_streak p) d.

Definition saved_entry (p : Player) : str * Player := (name p, reset_streak p).

(** The leaderboard of the counterexample to C2: one accepted name that
    holds the column separator. *)
Definition pipe_board : Leaderboard :=
  snd (add_score (mkDatetime 2024 5 17 9 30 0) (Leaderboard_init None)
         (S_ "a|b") (RawStr (S_ "5"))).

(** The leaderboards of a run: built from the file, then changed by
    [add_score] only. *)
Inductive reachable : Leaderboard -> Prop :=
| reach_init (d : option str) : reachable (Leaderboard_init d)
| reach_add (now : datetime) (lb : Leaderboard) (nm : str) (r : raw_score) :
    reachable lb -> reachable (snd (add_score now lb nm r)).

(** A leaderboard of a short run: three accepted scores for two players. *)
Definition sample_board : Leaderboard :=
  let t := mkDatetime 2024 5 17 9 30 0 in
  let lb1 := snd (add_score t (Leaderboard_init None) (S_ "Alice") (RawStr (S_ "100"))) in
  let lb2 := snd (add_score t lb1 (S_ "Bob") (RawInt 200)) in
  snd (add_score t lb2 (S_ "Alice") (RawStr (S_ "50"))).

(** ** player_class.py: the average *)

(** A Python number as the code produces it: an [int], or the [float] that
    the true division [num / den] of two ints rounds to.  The float itself is
    not computed; the exact quotient stands for it. *)
Inductive py_number :=
| PyInt (z : Z)
| PyTrueDiv (num den : Z).

(** What a call comes to: a value, or the [OverflowError] that a true
    division raises. *)
Inductive outcome (A : Type) :=
| Returned (a : A)
| OverflowError.
Arguments Returned {A} a.
Arguments OverflowError {A}.

(** The least quotient that rounds (to nearest, ties to even) beyond the
    largest float: half a unit in the last place above it. *)
Definition float_overflow_bound : Z := 2 ^ 1024 - 2 ^ 970.

(** [num / den] for two ints, [den] not zero: the correctly rounded float,
    or [OverflowError] when the quotient is out of the range of floats. *)
Definition true_divide (num den : Z) : outcome py_number :=
  if float_overflow_bound * Z.abs den <=? Z.abs num then OverflowError
  else Returned (PyTrueDiv num den).

(** [sum(l)] *)
Definition py_sum (l : list Z) : Z := fold_left Z.add l 0.

(** [Player.get_average_score(self)] *)
Definition get_average_score (p : Player) : outcome py_number :=
  if (length (score_history p) =? 0)%nat then Returned (PyInt 0)
  else true_divide (py_sum (score_history p))
                   (Z.of_nat (length (score_history p))).

(** ** score_manager.py: statistics and display *)

(** The [dict] that [get_player_stats] returns, one field per key. *)
Record player_stats := mkStats {
  st_name : str;
  st_current_score : Z;
  st_best_score : Z;
  st_games_played : Z;
  st_average_score : py_number;
  st_current_streak : Z;
  st_score_history : list Z
}.

(** [Leaderboard.get_player_stats(self, name)]; [None] is Python's [None],
    and an exception of [get_average_score] leaves the call before the
    [dict] is built. *)
Definition get_player_stats (nm : str) (lb : Leaderboard)
  : outcome (option player_stats) :=
  match dict_get nm (players lb) with
  | None => Returned None
  | Some player =>
      match get_average_score player with
      | OverflowError => OverflowError
      | Returned average =>
          Returned
            (Some {| st_name := name player;
                     st_current_score := score player;
                     st_best_score := best_score player;
                     st_games_played := games_played player;
                     st_average_score := average;
                     st_current_streak := current_streak player;
                     st_score_history := score_history player |})
      end
  end.

(** [format(x, '<w')]: left-aligned in a field of [w], never cut. *)
Definition ljust (w : nat) (s : str) : str := s ++ repeat " "%char (w - length s).

(** [s.center(w)]: when the margin is odd the extra blank goes left exactly
    when the width is odd as well. *)
Definition center (w : nat) (s : str) : str :=
  let marg := (w - length s)%nat in
  let left := (marg / 2 + (if Nat.odd marg && Nat.odd w then 1 else 0))%nat in
  repeat " "%char left ++ s ++ repeat " "%char (marg - left).

(** The loop of [display_leaderboard]: rank, player and gap to the previous
    rank ([None] prints as a dash). *)
Fixpoint display_rows (rank : Z) (prev_score : option Z) (top : list Player)
  : list (Z * Player * option Z) :=
  match top with
  | [] => []
  | player :: rest =>
      let gap := match prev_score with
                 | None => None
                 | Some s => Some (s - score player)
                 end in
      (rank, player, gap) :: display_rows (rank + 1) (Some (score player)) rest
  end.

Definition gap_text (gap : option Z) : str :=
  match gap with
  | None => S_ "-"
  | Some g => str_of_Z g
  end.

Definition row_text (row : Z * Player * option Z) : str :=
  let '(rank, player, gap) := row in
  ljust 6 (str_of_Z rank) ++ S_ " " ++ ljust 20 (name player) ++ S_ " " ++
  ljust 10 (str_of_Z (score player)) ++ S_ " " ++ ljust 10 (gap_text gap).

Definition no_players_message : str :=
  S_ "No players yet. Add some scores to get started!".

Definition table_head : str :=
  ljust 6 (S_ "Rank") ++ S_ " " ++ ljust 20 (S_ "Player Name") ++ S_ " " ++
  ljust 10 (S_ "Score") ++ S_ " " ++ ljust 10 (S_ "Gap").

(** The body of [display_leaderboard]: what each [print] call is given. *)
Definition display_body (lb : Leaderboard) : list str :=
  match get_top_players 5 lb with
  | [] => [no_players_message]
  | top_players =>
      [table_head; repeat "-"%char 60] ++
      map row_text (display_rows 1 None top_players)
  end.

(** The decorator [leaderboard_header]: three prints, the wrapped function,
    one print. *)
Definition leaderboard_header {A : Type} (func : A -> list str) (arg : A)
  : list str :=
  [LF :: repeat "="%char 60;
   center 56 (S_ " VIDEO GAME LEADERBOARD ");
   repeat "="%char 60] ++
  func arg ++
  [repeat "="%char 60 ++ [LF]].

(** [Leaderboard.display_leaderboard(self)], decorated. *)
Definition display_leaderboard (lb : Leaderboard) : list str :=
  leaderboard_header display_body lb.

(** ** game_main.py: GameSession *)

(** One call of [add_score] with the clock reading of its save. *)
Definition call : Type := datetime * str * raw_score.

(** A run of [add_score] calls, results ignored. *)
Definition run (calls : list call) (lb : Leaderboard) : Leaderboard :=
  fold_left (fun lb c => let '(now, nm, r) := c in snd (add_score now lb nm r))
            calls lb.

Definition sample_players : list (str * Z) :=
  [(S_ "Alice", 8500); (S_ "Bob", 7200); (S_ "Charlie", 9100);
   (S_ "Diana", 6800); (S_ "Eve", 8900); (S_ "Frank", 7500);
   (S_ "Grace", 8200); (S_ "Henry", 6500)].

(** [GameSession.add_sample_data(self)]; [clock i] is the time of the save
    of the call number [i]. *)
Definition add_sample_data (clock : nat -> datetime) (lb : Leaderboard)
  : Leaderboard :=
  run (map (fun e => (clock (fst e), fst (snd e), RawInt (snd (snd e))))
           (combine (seq 0 (length sample_players)) sample_players)) lb.

(** Choice 1 of [GameSession.run]: both answers are stripped, then handed to
    [add_score]. *)
Definition menu_add_score (now : datetime) (lb : Leaderboard)
    (typed_name typed_score : str) : bool * Leaderboard :=
  add_score now lb (strip typed_name) (RawStr (strip typed_score)).

(** ** Vocabulary of the further statements *)

(** The record [add_score] stores under [nm] for the score [sc]. *)
Definition stored (lb : Leaderboard) (nm : str) (sc : Z) : Player :=
  match dict_get nm (players lb) with
  | Some p => update_score p sc
  | None => Player_init nm sc
  end.

(** What a call contributes: its name and score when both validators
    accept. *)
Definition accepted (c : call) : option (str * Z) :=
  let '(_, nm, r) := c in
  if validate_name nm && validate_score r
  then option_map (pair nm) (int_of_raw r)
  else None.

(** The scores accepted for [nm], in call order. *)
Fixpoint scores_of (nm : str) (calls : list call) : list Z :=
  match calls with
  | [] => []
  | c :: cs =>
      match accepted c with
      | Some (k, s) => if str_eqb nm k then s :: scores_of nm cs
                       else scores_of nm cs
      | None => scores_of nm cs
      end
  end.

(** The data model of one entry: the key is the name, the name is valid,
    every score is in range, the record invariants hold and the streak is
    below the number of games. *)
Definition record_ok (e : str * Player) : Prop :=
  name (snd e) = fst e /\
  validate_name (fst e) = true /\
  Forall (fun s => 0 <= s <= 10000) (score_history (snd e)) /\
  invariants (snd e) /\
  0 <= current_streak (snd e) < games_played (snd e).

Definition is_blank (line : str) : bool :=
  match strip line with [] => true | _ => false end.

(** The columns of a row of the table, and the sum of the gaps shown. *)
Definition row_rank (row : Z * Player * option Z) : Z := fst (fst row).
Definition row_player (row : Z * Player * option Z) : Player := snd (fst row).
Definition row_gap (row : Z * Player * option Z) : option Z := snd row.

Definition gap_total (rows : list (Z * Player * option Z)) : Z :=
  fold_right (fun row acc => match row_gap row with
                             | Some g => g + acc
                             | None => acc
                             end) 0 rows.

(** The calls that [add_sample_data] makes. *)
Definition sample_calls (clock : nat -> datetime) : list call :=
  map (fun e => (clock (fst e), fst (snd e), RawInt (snd (snd e))))
      (combine (seq 0 (length sample_players)) sample_players).

(** The leaderboard of the counterexample to C9: one accepted name that
    holds a line feed. *)
Definition linefeed_board : Leaderboard :=
  snd (add_score (mkDatetime 2024 5 17 9 30 0) (Leaderboard_init None)
         (S_ "A" ++ [LF] ++ S_ "B") (RawStr (S_ "5"))).

(** A name without a line break. *)
Definition one_line (nm : str) : Prop := lacks LF nm /\ lacks CR nm.

(** The default cap of [int()] on the digits of a literal, an integer that
    [int()] reads back under that cap, and a record whose line loads. *)
Definition int_max_str_digits : Z := 4300.

Definition under_digit_cap (z : Z) : Prop := Z.abs z < 10 ^ int_max_str_digits.

Definition loadable (p : Player) : Prop :=
  savable p /\
  under_digit_cap (score p) /\ under_digit_cap (games_played p) /\
  under_digit_cap (best_score p) /\ Forall under_digit_cap (score_history p).

(** The text of the table row number [i] (from 0) for the player [p] of the
    ranking [top], as the format of [display_leaderboard] prints it. *)
Definition printed_row (top : list Player) (i : nat) (p : Player) : str :=
  ljust 6 (str_of_Z (Z.of_nat i + 1)) ++ S_ " " ++
  ljust 20 (name p) ++ S_ " " ++
  ljust 10 (str_of_Z (score p)) ++ S_ " " ++
  ljust 10 (match i with
            | O => S_ "-"
            | S j => match nth_error top j with
                     | Some above => str_of_Z (score above - score p)
                     | None => S_ "-"
                     end
            end).

(** * Theorems *)

Lemma fold_left_max_snoc (l : list Z) (a x : Z) :
  fold_left Z.max (l ++ [x]) a = Z.max (fold_left Z.max l a) x.
Proof. now rewrite fold_left_app. Qed.

Lemma py_max_snoc (l : list Z) (m x : Z) :
  py_max l = Some m -> py_max (l ++ [x]) = Some (Z.max m x).
Proof.
  destruct l as [|a l]; simpl; [discriminate|].
  intros [= <-]. now rewrite fold_left_max_snoc.
Qed.

Lemma update_score_fields (p : Player) (s : Z) :
  name (update_score p s) = name p /\
  score (update_score p s) = s /\
  games_played (update_score p s) = games_played p + 1 /\
  score_history (update_score p s) = score_history p ++ [s] /\
  best_score (update_score p s) = Z.max (best_score p) s.
Proof.
  unfold update_score; simpl.
  destruct (Z.ltb_spec (best_score p) s); simpl; repeat split; lia.
Qed.

Lemma Player_init_invariants (nm : str) (sc : Z) : invariants (Player_init nm sc).
Proof.
  unfold invariants; simpl. repeat split; try discriminate.
  now exists [].
Qed.

Lemma update_score_invariants (p : Player) (s : Z) :
  invariants p -> invariants (update_score p s).
Proof.
  intros (Hne & Hlen & Hmax & _).
  destruct (update_score_fields p s) as (_ & Hs & Hg & Hh & Hb).
  unfold invariants. rewrite Hs, Hg, Hh, Hb.
  split; [now destruct (score_history p)|].
  split; [rewrite length_app; simpl; lia|].
  split; [now apply py_max_snoc|].
  now exists (score_history p).
Qed.

(** C3: an update whose new score is strictly above the best score before it
    adds one to the streak and makes the new score the best; any other update
    resets the streak to 0, also when the new score is above the previous
    current score without beating the best. *)
Theorem update_score_streak (p : Player) (new_score : Z) :
  (best_score p < new_score ->
     current_streak (update_score p new_score) = current_streak p + 1 /\
     best_score (update_score p new_score) = new_score) /\
  (new_score <= best_score p ->
     current_streak (update_score p new_score) = 0) /\
  (score p < new_score <= best_score p ->
     current_streak (update_score p new_score) = 0).
Proof.
  unfold update_score; simpl.
  destruct (Z.ltb_spec (best_score p) new_score); simpl;
    repeat split; intros; lia.
Qed.

Lemma update_score_streak_witness :
  let p := after_updates (S_ "Alice") 100 [50] in
  (current_streak (update_score p 200) = current_streak p + 1 /\
   best_score (update_score p 200) = 200) /\
  current_streak (update_score p 100) = 0 /\
  current_streak (update_score p 80) = 0.
Proof.
  intro p.
  destruct (update_score_streak p 200) as (H1 & _).
  destruct (update_score_streak p 100) as (_ & H2 & _).
  destruct (update_score_streak p 80) as (_ & _ & H3).
  split; [apply H1; vm_compute; reflexivity|].
  split; [apply H2; vm_compute; discriminate|].
  apply H3; vm_compute; split; [reflexivity | discriminate].
Defined.

(** C4: a record made by create satisfies the four invariants (history not
    empty, its length is games_played, best_score is its maximum,
    current_score is its last element), an update keeps them, and so every
    record reached by create followed by any updates satisfies them. *)
Theorem player_invariants (nm : str) (sc : Z) (scores : list Z) :
  invariants (Player_init nm sc) /\
  (forall p s, invariants p -> invariants (update_score p s)) /\
  invariants (after_updates nm sc scores).
Proof.
  split; [apply Player_init_invariants|].
  split; [intros p s; apply update_score_invariants|].
  unfold after_updates.
  generalize (Player_init_invariants nm sc).
  generalize (Player_init nm sc) as p.
  induction scores as [|s scores IH]; intros p Hp; simpl; [exact Hp|].
  apply IH. now apply update_score_invariants.
Qed.

Lemma player_invariants_witness :
  invariants (after_updates (S_ "Alice") 100 [50; 200]) /\
  invariants (update_score (after_updates (S_ "Alice") 100 [50; 200]) 7).
Proof.
  destruct (player_invariants (S_ "Alice") 100 [50; 200]) as (_ & Hstep & Hreach).
  split; [exact Hreach | apply Hstep; exact Hreach].
Defined.

(** ** The validators *)

(** C6: validate_score fails when the input does not parse as an integer,
    fails when the parsed value is negative or above 10000, and succeeds
    otherwise.  It is a function of its input alone: no leaderboard goes in
    or comes out. *)
Theorem validate_score_spec (r : raw_score) :
  (int_of_raw r = None -> validate_score r = false) /\
  (forall z, int_of_raw r = Some z -> z < 0 \/ 10000 < z ->
             validate_score r = false) /\
  (forall z, int_of_raw r = Some z -> 0 <= z <= 10000 ->
             validate_score r = true).
Proof.
  unfold validate_score.
  split; [intros ->; reflexivity|].
  split; intros z -> Hz.
  - destruct (Z.ltb_spec z 0); [reflexivity|].
    destruct (Z.ltb_spec 10000 z); [reflexivity | lia].
  - destruct (Z.ltb_spec z 0); [lia|].
    destruct (Z.ltb_spec 10000 z); [lia | reflexivity].
Qed.

Lemma validate_score_spec_witness :
  validate_score (RawStr (S_ "12a")) = false /\
  validate_score (RawStr (S_ "-1")) = false /\
  validate_score (RawInt 10001) = false /\
  validate_score (RawStr (S_ " 10000 ")) = true.
Proof.
  split; [apply (proj1 (validate_score_spec (RawStr (S_ "12a")))); reflexivity|].
  split; [apply (proj1 (proj2 (validate_score_spec (RawStr (S_ "-1"))))
                   (-1) eq_refl); lia|].
  split; [apply (proj1 (proj2 (validate_score_spec (RawInt 10001)))
                   10001 eq_refl); lia|].
  apply (proj2 (proj2 (validate_score_spec (RawStr (S_ " 10000 "))))
           10000 eq_refl); lia.
Defined.

Lemma validate_name_too_long (nm : str) :
  (20 < length nm)%nat -> validate_name nm = false.
Proof.
  intros Hlong. unfold validate_name.
  destruct (_ || _); [reflexivity|].
  destruct (Nat.ltb_spec 20 (length nm)); [reflexivity | lia].
Qed.

(** C7: validate_name fails when the trimmed name has length zero, fails
    when the name is longer than 20 characters, and succeeds otherwise. *)
Theorem validate_name_spec (nm : str) :
  (length (strip nm) = 0%nat -> validate_name nm = false) /\
  ((20 < length nm)%nat -> validate_name nm = false) /\
  (length (strip nm) <> 0%nat -> (length nm <= 20)%nat ->
   validate_name nm = true).
Proof.
  unfold validate_name.
  split; [intros ->; rewrite orb_true_r; reflexivity|].
  split.
  - unfold validate_name. apply validate_name_too_long.
  - intros Hne Hlen.
    destruct nm as [|c nm]; [now elim Hne|].
    destruct (Nat.eqb_spec (length (strip (c :: nm))) 0); [contradiction|].
    simpl orb.
    destruct (Nat.ltb_spec 20 (length (c :: nm))); [lia | reflexivity].
Qed.

Lemma validate_name_spec_witness :
  validate_name (S_ "   ") = false /\
  validate_name (S_ "ABCDEFGHIJKLMNOPQRSTU") = false /\
  validate_name (S_ "Alice") = true.
Proof.
  split; [apply (proj1 (validate_name_spec (S_ "   "))); reflexivity|].
  split; [apply (proj1 (proj2 (validate_name_spec (S_ "ABCDEFGHIJKLMNOPQRSTU"))));
          vm_compute; lia|].
  apply (proj2 (proj2 (validate_name_spec (S_ "Alice"))));
    vm_compute; [discriminate | lia].
Defined.

(** ** add_score *)

Lemma add_score_rejected (now : datetime) (lb : Leaderboard) (nm : str)
    (r : raw_score) :
  validate_name nm = false \/ validate_score r = false ->
  add_score now lb nm r = (false, lb).
Proof.
  unfold add_score. intros [-> | Hr]; [reflexivity|].
  rewrite Hr. now destruct (validate_name nm).
Qed.

(** C5: when either validator rejects its input, add_score returns False and
    the leaderboard (its players, and the file) is unchanged; so it is for
    ("Alice", "10001"), for ("", "100") and for every name of 21 characters,
    while ("Alice", "10000") is accepted. *)
Theorem add_score_validation (now : datetime) (lb : Leaderboard) :
  (forall nm r, validate_name nm = false \/ validate_score r = false ->
                add_score now lb nm r = (false, lb)) /\
  add_score now lb (S_ "Alice") (RawStr (S_ "10001")) = (false, lb) /\
  add_score now lb (S_ "") (RawStr (S_ "100")) = (false, lb) /\
  (forall nm, length nm = 21%nat ->
              add_score now lb nm (RawStr (S_ "100")) = (false, lb)) /\
  fst (add_score now lb (S_ "Alice") (RawStr (S_ "10000"))) = true.
Proof.
  split; [intros nm r; apply add_score_rejected|].
  split; [apply add_score_rejected; right; reflexivity|].
  split; [apply add_score_rejected; left; reflexivity|].
  split.
  - intros nm Hlen. apply add_score_rejected. left.
    apply validate_name_too_long. lia.
  - unfold add_score.
    replace (validate_name (S_ "Alice")) with true by reflexivity.
    replace (validate_score (RawStr (S_ "10000"))) with true by reflexivity.
    replace (int_of_raw (RawStr (S_ "10000"))) with (Some 10000) by reflexivity.
    reflexivity.
Qed.

Lemma add_score_validation_witness :
  let t := mkDatetime 2024 5 17 9 30 0 in
  let lb := mkLeaderboard [(S_ "Bob", Player_init (S_ "Bob") 7)] None in
  add_score t lb (S_ "Bob") (RawStr (S_ "ten")) = (false, lb) /\
  add_score t lb (repeat "A"%char 21) (RawStr (S_ "100")) = (false, lb).
Proof.
  intros t lb.
  destruct (add_score_validation t lb) as (Hrej & _ & _ & Hlong & _).
  split; [apply Hrej; right; reflexivity | apply Hlong; reflexivity].
Defined.

(** ** Ranking *)

Lemma insert_desc_perm (x : Player) (l : list Player) :
  Permutation (x :: l) (insert_desc x l).
Proof.
  induction l as [|y l IH]; simpl; [reflexivity|].
  destruct (score x <? score y); [|reflexivity].
  rewrite perm_swap. now constructor.
Qed.

Lemma sorted_desc_perm (l : list Player) : Permutation l (sorted_desc l).
Proof.
  induction l as [|x l IH]; simpl; [constructor|].
  rewrite <- insert_desc_perm. now constructor.
Qed.

Lemma insert_desc_sorted (x : Player) (l : list Player) :
  StronglySorted desc l -> StronglySorted desc (insert_desc x l).
Proof.
  induction 1 as [|y l Hl IH Hy]; simpl.
  - repeat constructor.
  - destruct (Z.ltb_spec (score x) (score y)) as [Hlt | Hge].
    + constructor; [exact IH|].
      rewrite <- (insert_desc_perm x l). constructor; [unfold desc; lia | exact Hy].
    + constructor; [now constructor|].
      constructor; [exact Hge|].
      eapply Forall_impl; [|exact Hy]. unfold desc. intros; lia.
Qed.

Lemma sorted_desc_sorted (l : list Player) : StronglySorted desc (sorted_desc l).
Proof.
  induction l as [|x l IH]; simpl; [constructor | now apply insert_desc_sorted].
Qed.

Lemma insert_desc_filter (k : Z) (x : Player) (l : list Player) :
  StronglySorted desc l ->
  filter (has_score k) (insert_desc x l) = filter (has_score k) (x :: l).
Proof.
  induction 1 as [|y l Hl IH Hy]; [reflexivity|].
  cbn [insert_desc].
  destruct (Z.ltb_spec (score x) (score y)) as [Hlt | Hge]; [|reflexivity].
  cbn [filter] in *. rewrite IH. unfold has_score.
  destruct (Z.eqb_spec (score x) k), (Z.eqb_spec (score y) k);
    try reflexivity; lia.
Qed.

Lemma sorted_desc_stable (k : Z) (l : list Player) :
  filter (has_score k) (sorted_desc l) = filter (has_score k) l.
Proof.
  induction l as [|x l IH]; [reflexivity|].
  cbn [sorted_desc fold_right]. fold (sorted_desc l).
  rewrite insert_desc_filter by apply sorted_desc_sorted.
  cbn [filter]. now rewrite IH.
Qed.

Lemma StronglySorted_firstn {A : Type} (R : A -> A -> Prop) (n : nat)
    (l : list A) :
  StronglySorted R l -> StronglySorted R (firstn n l).
Proof.
  intros H. revert n. induction H as [|x l Hl IH Hx]; intros [|n]; simpl;
    try constructor; [apply IH|].
  rewrite Forall_forall in *. intros y Hy. apply Hx.
  rewrite <- (firstn_skipn n l). apply in_or_app. now left.
Qed.

Lemma slice_to_length {A : Type} (n : Z) (l : list A) :
  Z.of_nat (length (slice_to n l)) =
  if n <? 0 then Z.max 0 (n + Z.of_nat (length l))
  else Z.min n (Z.of_nat (length l)).
Proof.
  unfold slice_to. rewrite length_firstn.
  destruct (Z.ltb_spec n 0); lia.
Qed.

Lemma slice_to_prefix {A : Type} (n : Z) (l : list A) :
  exists rest, l = slice_to n l ++ rest.
Proof.
  unfold slice_to. eexists. symmetry. apply firstn_skipn.
Qed.

Lemma get_top_players_slice (lb : Leaderboard) (n : Z) :
  let all := dict_values (players lb) in
  let top := get_top_players n lb in
  (0 <= n -> Z.of_nat (length top) <= n) /\
  StronglySorted desc top /\
  (exists rest, sorted_desc all = top ++ rest) /\
  (forall k, exists later,
     filter (has_score k) all = filter (has_score k) top ++ later).
Proof.
  intros all top. unfold top, get_top_players. fold all.
  pose proof (slice_to_length n (sorted_desc all)) as Hlen.
  split; [intros Hn; destruct (Z.ltb_spec n 0); lia|].
  split; [apply StronglySorted_firstn, sorted_desc_sorted|].
  split; [apply slice_to_prefix|].
  intros k. destruct (slice_to_prefix n (sorted_desc all)) as (rest & Hrest).
  exists (filter (has_score k) rest).
  now rewrite <- filter_app, <- Hrest, sorted_desc_stable.
Qed.

(** C8: for every leaderboard and every number n of players asked for (a
    count, as the docstring has it and as both callers pass it),
    get_top_players(n) returns at most n records, sorted by current score in
    descending order; they are a prefix of the whole collection sorted that
    way, which is a rearrangement of the collection that keeps players of
    equal score in the iteration order of the collection (so the players of
    one score in the result are the first of that score in iteration
    order). *)
Theorem get_top_players_spec (lb : Leaderboard) (n : nat) :
  let all := dict_values (players lb) in
  let top := get_top_players (Z.of_nat n) lb in
  (length top <= n)%nat /\
  StronglySorted desc top /\
  (exists rest, sorted_desc all = top ++ rest) /\
  Permutation all (sorted_desc all) /\
  StronglySorted desc (sorted_desc all) /\
  (forall k, filter (has_score k) (sorted_desc all) = filter (has_score k) all) /\
  (forall k, exists later,
     filter (has_score k) all = filter (has_score k) top ++ later).
Proof.
  intros all top.
  destruct (get_top_players_slice lb (Z.of_nat n)) as (Hlen & Hss & Hpre & Hties).
  fold all in Hpre, Hties. fold top in Hlen, Hss, Hpre, Hties.
  split; [lia|]. split; [exact Hss|]. split; [exact Hpre|].
  split; [apply sorted_desc_perm|].
  split; [apply sorted_desc_sorted|].
  split; [intros k; apply sorted_desc_stable | exact Hties].
Qed.

(** ** Printing and parsing integers *)

Lemma code_digit_char (d : N) : (d < 10)%N -> code (digit_char d) = (48 + d)%N.
Proof.
  intros Hd. unfold code, digit_char. apply N_ascii_embedding. lia.
Qed.

Lemma is_digit_digit_char (d : N) : (d < 10)%N -> is_digit (digit_char d) = true.
Proof.
  intros Hd. unfold is_digit. rewrite code_digit_char by exact Hd.
  apply andb_true_intro. split; apply N.leb_le; lia.
Qed.

Lemma digit_val_digit_char (d : N) :
  (d < 10)%N -> digit_val (digit_char d) = Z.of_N d.
Proof.
  intros Hd. unfold digit_val. rewrite code_digit_char by exact Hd. lia.
Qed.

Lemma N_digits_spec (f : nat) :
  forall (n : N) (acc : str),
    (n < 2 ^ N.of_nat (S f))%N ->
    exists ds, N_digits (S f) n acc = ds ++ acc /\ ds <> [] /\
               all_digits ds /\ horner ds 0 = Z.of_N n.
Proof.
  induction f as [|f IH]; intros n acc Hn.
  - assert (Hsmall : (n < 2)%N) by (simpl in Hn; lia).
    exists [digit_char (n mod 10)]. cbn [N_digits].
    assert (Hdiv : (n / 10 = 0)%N) by (apply N.div_small; lia).
    rewrite Hdiv. cbn [N.eqb].
    assert (Hmod : (n mod 10 < 10)%N) by (apply N.mod_lt; lia).
    repeat split; [discriminate | | ].
    + constructor; [now apply is_digit_digit_char | constructor].
    + unfold horner; simpl. rewrite digit_val_digit_char by exact Hmod.
      rewrite N.mod_small by lia. lia.
  - assert (Hmod : (n mod 10 < 10)%N) by (apply N.mod_lt; lia).
    change (N_digits (S (S f)) n acc) with
      (if (n / 10 =? 0)%N then digit_char (n mod 10) :: acc
       else N_digits (S f) (n / 10) (digit_char (n mod 10) :: acc)).
    destruct (N.eqb_spec (n / 10) 0) as [Hdiv | Hdiv].
    + exists [digit_char (n mod 10)].
      repeat split; [discriminate | | ].
      * constructor; [now apply is_digit_digit_char | constructor].
      * unfold horner; simpl. rewrite digit_val_digit_char by exact Hmod.
        pose proof (N.div_mod' n 10). lia.
    + destruct (IH (n / 10)%N (digit_char (n mod 10) :: acc))
        as (ds & Heq & Hne & Hall & Hval).
      { assert (n / 10 <= n / 2)%N.
        { apply N.div_le_lower_bound; [lia|].
          assert (10 * (n / 10) <= n)%N by apply N.Div0.mul_div_le. lia. }
        assert (n / 2 < 2 ^ N.of_nat (S f))%N.
        { apply N.Div0.div_lt_upper_bound.
          replace (N.of_nat (S (S f))) with (N.succ (N.of_nat (S f))) in Hn by lia.
          rewrite N.pow_succ_r' in Hn. exact Hn. }
        lia. }
      exists (ds ++ [digit_char (n mod 10)]).
      rewrite Heq, <- app_assoc. repeat split.
      * now destruct ds.
      * apply Forall_app. split; [exact Hall|].
        constructor; [now apply is_digit_digit_char | constructor].
      * unfold horner in *. rewrite fold_left_app, Hval. cbn [fold_left].
        rewrite digit_val_digit_char by exact Hmod.
        pose proof (N.div_mod' n 10). lia.
Qed.

Lemma str_of_N_spec (n : N) :
  str_of_N n <> [] /\ all_digits (str_of_N n) /\ horner (str_of_N n) 0 = Z.of_N n.
Proof.
  unfold str_of_N.
  destruct (N_digits_spec (N.to_nat (N.log2 n)) n []) as (ds & Heq & Hne & Hall & Hval).
  - destruct n as [|p]; [reflexivity|].
    replace (N.of_nat (S (N.to_nat (N.log2 (N.pos p)))))
      with (N.succ (N.log2 (N.pos p))) by lia.
    apply N.log2_spec. lia.
  - rewrite Heq, app_nil_r. auto.
Qed.

Lemma int_digits_all_digits (ds : str) :
  all_digits ds -> forall acc prev,
  int_digits ds acc prev =
  match ds with
  | [] => if prev then Some acc else None
  | _ => Some (horner ds acc)
  end.
Proof.
  induction 1 as [|c ds Hc Hds IH]; intros acc prev; [reflexivity|].
  cbn [int_digits]. rewrite Hc, IH.
  destruct ds; reflexivity.
Qed.

Lemma drop_while_head (f : ascii -> bool) (c : ascii) (s : str) :
  f c = false -> drop_while f (c :: s) = c :: s.
Proof. intros H. simpl. now rewrite H. Qed.

Lemma strip_with_ends (f : ascii -> bool) (c d : ascii) (s : str) :
  f c = false -> f d = false -> strip_with f (c :: s ++ [d]) = c :: s ++ [d].
Proof.
  intros Hc Hd. unfold strip_with.
  rewrite drop_while_head by exact Hc.
  replace (rev (c :: s ++ [d])) with (d :: rev (c :: s))
    by (change (c :: s ++ [d]) with ((c :: s) ++ [d]);
        now rewrite rev_app_distr).
  rewrite drop_while_head by exact Hd.
  change (d :: rev (c :: s)) with (rev [d] ++ rev (c :: s)).
  now rewrite <- rev_app_distr, rev_involutive.
Qed.

Lemma strip_with_single (f : ascii -> bool) (c : ascii) :
  f c = false -> strip_with f [c] = [c].
Proof. intros Hc. unfold strip_with. simpl. rewrite Hc. simpl. now rewrite Hc. Qed.

(** A string that neither starts nor ends with a character of [f] is its own
    strip. *)
Lemma strip_with_id (f : ascii -> bool) (s : str) :
  (forall c t, s = c :: t -> f c = false) ->
  (forall c t, s = t ++ [c] -> f c = false) ->
  strip_with f s = s.
Proof.
  intros Hfirst Hlast.
  destruct s as [|c t]; [reflexivity|].
  destruct (exists_last (l := c :: t)) as (u & d & Hu); [discriminate|].
  destruct u as [|c' u].
  - simpl in Hu. injection Hu as -> ->. apply strip_with_single.
    now apply (Hfirst d []).
  - simpl in Hu. injection Hu as <- ->.
    apply strip_with_ends; [now apply (Hfirst c (u ++ [d]))|].
    now apply (Hlast d (c :: u)).
Qed.

Ltac char_class :=
  repeat apply orb_false_intro;
  first [ apply N.eqb_neq; lia
        | apply andb_false_iff; right; apply N.leb_gt; lia
        | apply andb_false_iff; left; apply N.leb_gt; lia ].

Lemma digit_not_int_space (c : ascii) : is_digit c = true -> is_int_space c = false.
Proof.
  unfold is_digit, is_int_space. intros H.
  apply andb_prop in H as [H1 H2]. apply N.leb_le in H1, H2. char_class.
Qed.

Lemma digit_not_space (c : ascii) : is_digit c = true -> is_space c = false.
Proof.
  unfold is_digit, is_space. intros H.
  apply andb_prop in H as [H1 H2]. apply N.leb_le in H1, H2. char_class.
Qed.

Lemma digit_neq (c d : ascii) :
  is_digit c = true -> is_digit d = false -> Ascii.eqb c d = false.
Proof.
  intros Hc Hd. destruct (Ascii.eqb_spec c d); [congruence | reflexivity].
Qed.

Lemma all_digits_last (s : str) (c : ascii) (t : str) :
  all_digits s -> s = t ++ [c] -> is_digit c = true.
Proof.
  intros Hs ->. apply Forall_app in Hs as [_ Hc]. now inversion Hc.
Qed.

Lemma py_int_digits (ds : str) :
  all_digits ds -> ds <> [] -> py_int ds = Some (horner ds 0).
Proof.
  intros Hall Hne. unfold py_int.
  rewrite strip_with_id.
  - destruct ds as [|c ds]; [contradiction|].
    assert (Hc : is_digit c = true) by now inversion Hall.
    rewrite (digit_neq c "-"), (digit_neq c "+") by (exact Hc || reflexivity).
    now rewrite int_digits_all_digits.
  - intros c t ->. apply digit_not_int_space. now inversion Hall.
  - intros c t Ht. apply digit_not_int_space. eapply all_digits_last; eauto.
Qed.

Lemma py_int_neg_digits (ds : str) :
  all_digits ds -> ds <> [] -> py_int ("-"%char :: ds) = Some (- horner ds 0).
Proof.
  intros Hall Hne. unfold py_int.
  rewrite strip_with_id.
  - cbn [Ascii.eqb]. change (Ascii.eqb "-" "-") with true. cbv iota.
    rewrite int_digits_all_digits by exact Hall.
    destruct ds; [contradiction | reflexivity].
  - intros c t [= <- _]. reflexivity.
  - intros c t Ht. apply digit_not_int_space.
    destruct t as [|m t]; simpl in Ht; injection Ht as _ Ht;
      [subst ds; now elim Hne|].
    eapply all_digits_last; eauto.
Qed.

(** [int(str(z)) == z] *)
Lemma py_int_str_of_Z (z : Z) : py_int (str_of_Z z) = Some z.
Proof.
  unfold str_of_Z. destruct (Z.ltb_spec z 0).
  - destruct (str_of_N_spec (Z.to_N (- z))) as (Hne & Hall & Hval).
    rewrite py_int_neg_digits by assumption. rewrite Hval. f_equal. lia.
  - destruct (str_of_N_spec (Z.to_N z)) as (Hne & Hall & Hval).
    rewrite py_int_digits by assumption. rewrite Hval. f_equal. lia.
Qed.

(** ** Splitting, joining and stripping *)

Lemma class_neq (P : ascii -> bool) (c d : ascii) :
  P c = true -> P d = false -> Ascii.eqb c d = false.
Proof.
  intros Hc Hd. destruct (Ascii.eqb_spec c d); [congruence | reflexivity].
Qed.

Lemma in_class_lacks (P : ascii -> bool) (d : ascii) (s : str) :
  P d = false -> in_class P s -> lacks d s.
Proof.
  intros Hd. apply Forall_impl. intros c Hc. now apply (class_neq P).
Qed.

Lemma in_class_weaken (P Q : ascii -> bool) (s : str) :
  (forall c, P c = true -> Q c = true) -> in_class P s -> in_class Q s.
Proof. intros HPQ. apply Forall_impl. exact HPQ. Qed.

Lemma split_lacks (sep : ascii) (s : str) : lacks sep s -> split sep s = [s].
Proof.
  induction 1 as [|c s Hc Hs IH]; [reflexivity|].
  cbn [split]. now rewrite Hc, IH.
Qed.

Lemma split_app (sep : ascii) (a b : str) :
  lacks sep a -> split sep (a ++ sep :: b) = a :: split sep b.
Proof.
  induction 1 as [|c a Hc Ha IH]; cbn [split app].
  - now rewrite Ascii.eqb_refl.
  - now rewrite Hc, IH.
Qed.

Lemma split_join (sep : ascii) (ws : list str) :
  ws <> [] -> Forall (lacks sep) ws -> split sep (join [sep] ws) = ws.
Proof.
  intros Hne Hall. induction Hall as [|w ws Hw Hws IH]; [contradiction|].
  destruct ws as [|w' ws].
  - cbn [join]. now apply split_lacks.
  - change (join [sep] (w :: w' :: ws)) with (w ++ sep :: join [sep] (w' :: ws)).
    rewrite split_app by exact Hw. f_equal. apply IH. discriminate.
Qed.

Lemma str_of_Z_num (z : Z) : in_class num_char (str_of_Z z).
Proof.
  assert (Hd : forall n, in_class num_char (str_of_N n)).
  { intros n. destruct (str_of_N_spec n) as (_ & Hall & _).
    eapply in_class_weaken; [|exact Hall].
    intros c Hc. unfold num_char. now rewrite Hc. }
  unfold str_of_Z. destruct (z <? 0); [constructor; [reflexivity|]|]; apply Hd.
Qed.

Lemma str_of_Z_ends (z : Z) : ends_with_digit (str_of_Z z).
Proof.
  assert (Hd : forall n, ends_with_digit (str_of_N n)).
  { intros n. destruct (str_of_N_spec n) as (Hne & Hall & _).
    destruct (exists_last Hne) as (t & c & Heq).
    exists t, c. split; [exact Heq | eapply all_digits_last; eauto]. }
  unfold str_of_Z. destruct (z <? 0); [|apply Hd].
  destruct (Hd (Z.to_N (- z))) as (t & c & -> & Hc).
  now exists ("-"%char :: t), c.
Qed.

Lemma ends_with_digit_app (a b : str) :
  ends_with_digit b -> ends_with_digit (a ++ b).
Proof.
  intros (t & c & -> & Hc). exists (a ++ t), c. now rewrite app_assoc.
Qed.

Lemma ends_with_digit_last (s t : str) (c : ascii) :
  ends_with_digit s -> s = t ++ [c] -> is_digit c = true.
Proof.
  intros (t' & c' & -> & Hc) Heq. apply app_inj_tail in Heq as [_ <-]. exact Hc.
Qed.

Lemma join_ends (sep : str) (ws : list str) :
  ws <> [] -> Forall ends_with_digit ws -> ends_with_digit (join sep ws).
Proof.
  intros Hne Hall. induction Hall as [|w ws Hw Hws IH]; [contradiction|].
  destruct ws as [|w' ws]; [exact Hw|].
  change (join sep (w :: w' :: ws)) with (w ++ sep ++ join sep (w' :: ws)).
  do 2 apply ends_with_digit_app. apply IH. discriminate.
Qed.

Lemma join_field_chars (hs : list Z) :
  in_class field_char (join [","%char] (map str_of_Z hs)).
Proof.
  assert (Hz : forall z, in_class field_char (str_of_Z z)).
  { intros z. eapply in_class_weaken; [|apply str_of_Z_num].
    intros c Hc. unfold field_char. now rewrite Hc. }
  induction hs as [|h hs IH]; [constructor|].
  destruct hs as [|h' hs]; [apply Hz|].
  change (join [","%char] (map str_of_Z (h :: h' :: hs)))
    with (str_of_Z h ++ ","%char :: join [","%char] (map str_of_Z (h' :: hs))).
  apply Forall_app. split; [apply Hz|].
  constructor; [reflexivity | exact IH].
Qed.

Lemma map_int_str_of_Z (hs : list Z) : map_int (map str_of_Z hs) = Some hs.
Proof.
  induction hs as [|h hs IH]; [reflexivity|].
  cbn [map map_int]. now rewrite py_int_str_of_Z, IH.
Qed.

(** The history column reads back: [list(map(int, csv.split(',')))]. *)
Lemma history_roundtrip (hs : list Z) :
  hs <> [] ->
  map_int (split "," (join [","%char] (map str_of_Z hs))) = Some hs.
Proof.
  intros Hne. rewrite split_join.
  - apply map_int_str_of_Z.
  - now destruct hs.
  - apply Forall_map, Forall_forall. intros z _.
    apply (in_class_lacks num_char); [reflexivity | apply str_of_Z_num].
Qed.

Lemma drop_while_snoc (f : ascii -> bool) (s : str) (w : ascii) :
  f w = true ->
  drop_while f (s ++ [w]) =
  match drop_while f s with [] => [] | r => r ++ [w] end.
Proof.
  intros Hw. induction s as [|c s IH]; cbn [app drop_while].
  - now rewrite Hw.
  - destruct (f c); [exact IH | reflexivity].
Qed.

Lemma strip_with_snoc (f : ascii -> bool) (s : str) (w : ascii) :
  f w = true -> strip_with f (s ++ [w]) = strip_with f s.
Proof.
  intros Hw. unfold strip_with. rewrite drop_while_snoc by exact Hw.
  destruct (drop_while f s) as [|c r]; [reflexivity|].
  rewrite rev_app_distr. cbn [rev app drop_while]. now rewrite Hw.
Qed.

(** ** Reading lines *)

Lemma universal_newlines_id (s : str) : lacks CR s -> universal_newlines s = s.
Proof.
  induction 1 as [|c s Hc Hs IH]; [reflexivity|].
  cbn [universal_newlines]. now rewrite Hc, IH.
Qed.

Lemma keep_lines_app (l rest : str) :
  lacks LF l -> keep_lines (l ++ LF :: rest) = (l ++ [LF]) :: keep_lines rest.
Proof.
  induction 1 as [|c l Hc Hl IH]; cbn [app keep_lines].
  - now rewrite Ascii.eqb_refl.
  - now rewrite Hc, IH.
Qed.

Lemma keep_lines_concat (ls : list str) :
  Forall (lacks LF) ls -> keep_lines (concat (map add_LF ls)) = map add_LF ls.
Proof.
  induction 1 as [|l ls Hl Hls IH]; [reflexivity|].
  cbn [map concat]. unfold add_LF at 1.
  rewrite <- app_assoc. cbn [app].
  rewrite keep_lines_app by exact Hl. now rewrite IH.
Qed.

Lemma readlines_concat (ls : list str) :
  Forall (lacks LF) ls -> Forall (lacks CR) ls ->
  readlines (concat (map add_LF ls)) = map add_LF ls.
Proof.
  intros HLF HCR. unfold readlines.
  rewrite universal_newlines_id; [now apply keep_lines_concat|].
  clear HLF. induction HCR as [|l ls Hl Hls IH]; [constructor|].
  cbn [map concat]. apply Forall_app. split; [|exact IH].
  apply Forall_app. split; [exact Hl | now constructor].
Qed.

(** ** The saved text *)

Lemma zero_pad_stamp (w : nat) (n : N) : in_class stamp_char (zero_pad w (str_of_N n)).
Proof.
  unfold zero_pad. apply Forall_app. split.
  - apply Forall_forall. intros c Hc. apply repeat_spec in Hc. now subst c.
  - destruct (str_of_N_spec n) as (_ & Hall & _).
    eapply in_class_weaken; [|exact Hall].
    intros c Hc. unfold stamp_char. now rewrite Hc.
Qed.

Lemma strftime_stamp (t : datetime) : in_class stamp_char (strftime t).
Proof.
  unfold strftime, S_. cbn [list_ascii_of_string app].
  repeat (apply Forall_app; split; [apply zero_pad_stamp|];
          apply Forall_cons; [reflexivity|]).
  apply zero_pad_stamp.
Qed.

Lemma header_line1_lacks (now : datetime) (d : ascii) :
  stamp_char d = false -> lacks d (S_ "Leaderboard - Updated: ") ->
  lacks d (header_line1 now).
Proof.
  intros Hd Hlit. apply Forall_app. split; [exact Hlit|].
  apply (in_class_lacks stamp_char); [exact Hd | apply strftime_stamp].
Qed.

Lemma header_lines_lack_breaks (now : datetime) :
  Forall (lacks LF) [header_line1 now; header_line2] /\
  Forall (lacks CR) [header_line1 now; header_line2].
Proof.
  split; (constructor; [apply header_line1_lacks;
                        [reflexivity | repeat constructor]|]);
    (constructor; [repeat constructor | constructor]).
Qed.

Lemma header_two_lines (now : datetime) :
  header now = concat (map add_LF [header_line1 now; header_line2]).
Proof.
  unfold header, header_line1, header_line2, add_LF. cbn [map concat].
  now rewrite app_nil_r, <- !app_assoc.
Qed.

Lemma file_text_lines (now : datetime) (ps : list Player) :
  file_text now ps =
  concat (map add_LF (header_line1 now :: header_line2 :: map player_fields ps)).
Proof.
  unfold file_text. rewrite header_two_lines.
  cbn [map concat]. rewrite app_nil_r, <- !app_assoc. do 2 f_equal.
  rewrite map_map. reflexivity.
Qed.

Lemma sorted_desc_length (l : list Player) : length (sorted_desc l) = length l.
Proof. symmetry. apply Permutation_length, sorted_desc_perm. Qed.

(** ** Loading *)

Lemma parse_line_streak (s : str) (p : Player) :
  parse_line s = Some p -> current_streak p = 0.
Proof.
  unfold parse_line.
  repeat match goal with
         | |- context [match ?x with _ => _ end] => destruct x; try discriminate
         end.
  now intros [= <-].
Qed.

Lemma dict_set_Forall (P : str * Player -> Prop) (k : str) (v : Player) (d : dict) :
  (forall k', P (k', v)) -> Forall P d -> Forall P (dict_set k v d).
Proof.
  intros Hv. induction 1 as [|[k' v'] d Hx Hd IH]; cbn [dict_set].
  - now constructor.
  - destruct (str_eqb k k'); constructor; auto.
Qed.

Lemma dict_set_not_nil (k : str) (v : Player) (d : dict) : dict_set k v d <> [].
Proof.
  destruct d as [|[k' v'] d]; cbn [dict_set]; [discriminate|].
  destruct (str_eqb k k'); discriminate.
Qed.

Lemma load_lines_cons (line : str) (rest : list str) (ps : dict) :
  load_lines (line :: rest) ps =
  match strip line with
  | [] => load_lines rest ps
  | _ :: _ =>
      match parse_line (strip line) with
      | Some p => load_lines rest (dict_set (name p) p ps)
      | None => (ps, false)
      end
  end.
Proof. cbn [load_lines]. now destruct (strip line). Qed.

Lemma load_lines_streak (lines : list str) :
  forall ps, Forall streak_zero ps ->
             Forall streak_zero (fst (load_lines lines ps)).
Proof.
  induction lines as [|line rest IH]; intros ps Hps; [exact Hps|].
  rewrite load_lines_cons.
  destruct (strip line) as [|c s] eqn:Hstrip; [now apply IH|].
  destruct (parse_line (c :: s)) as [p|] eqn:Hparse; [|exact Hps].
  apply IH, dict_set_Forall; [|exact Hps].
  intros k'. unfold streak_zero. cbn [snd]. eapply parse_line_streak; eauto.
Qed.

(** C10: every record that load_leaderboard builds has current_streak 0: a
    parsed line gives streak 0, hence so does every player of a leaderboard
    built from a file, and in particular every player read back from a file
    that save_leaderboard wrote, whatever the streaks were when it was
    written. *)
Theorem loaded_streak_zero :
  (forall s p, parse_line s = Some p -> current_streak p = 0) /\
  (forall d k p, In (k, p) (players (Leaderboard_init d)) ->
                 current_streak p = 0) /\
  (forall now lb k p,
     In (k, p) (players (Leaderboard_init (disk (save_leaderboard now lb)))) ->
     current_streak p = 0).
Proof.
  assert (H : forall d k p, In (k, p) (players (Leaderboard_init d)) ->
                            current_streak p = 0).
  { intros d k p Hin. unfold Leaderboard_init, load_leaderboard in Hin.
    cbn [disk] in Hin. destruct d as [text|]; [|contradiction].
    cbn [players] in Hin.
    pose proof (load_lines_streak (data_lines text) [] (Forall_nil _)) as Hall.
    rewrite Forall_forall in Hall. exact (Hall _ Hin). }
  split; [exact parse_line_streak|].
  split; [exact H | intros now lb; apply H].
Qed.

Lemma load_lines_failure (lines : list str) :
  forall ps, snd (load_lines lines ps) = false ->
  exists pre bad post,
    lines = pre ++ bad :: post /\ ~ blank bad /\
    parse_line (strip bad) = None /\
    load_lines pre ps = (fst (load_lines lines ps), true).
Proof.
  induction lines as [|line rest IH]; intros ps Hfail; [discriminate|].
  rewrite load_lines_cons in *.
  destruct (strip line) as [|c s] eqn:Hstrip.
  - destruct (IH ps Hfail) as (pre & bad & post & -> & Hbad & Hparse & Hpre).
    exists (line :: pre), bad, post. repeat split; try assumption.
    rewrite load_lines_cons, Hstrip. exact Hpre.
  - destruct (parse_line (c :: s)) as [p|] eqn:Hparse.
    + destruct (IH _ Hfail) as (pre & bad & post & -> & Hbad & Hparse' & Hpre).
      exists (line :: pre), bad, post. repeat split; try assumption.
      rewrite load_lines_cons, Hstrip, Hparse. exact Hpre.
    + exists [], line, rest. unfold blank. rewrite Hstrip.
      repeat split; [discriminate | exact Hparse].
Qed.

Lemma load_lines_empty (lines : list str) :
  forall ps res, load_lines lines ps = (res, true) ->
                 (res = [] <-> ps = [] /\ Forall blank lines).
Proof.
  induction lines as [|line rest IH]; intros ps res Hload.
  - injection Hload as ->. split; [now split | now intros []].
  - rewrite load_lines_cons in Hload.
    destruct (strip line) as [|c s] eqn:Hstrip.
    + rewrite (IH _ _ Hload). split; intros [Hps Hall]; (split; [exact Hps|]).
      * now constructor.
      * now inversion Hall.
    + destruct (parse_line (c :: s)) as [p|]; [|discriminate].
      rewrite (IH _ _ Hload). split.
      * intros [Hnil _]. now apply dict_set_not_nil in Hnil.
      * intros [_ Hall]. inversion Hall as [|? ? Hb]. unfold blank in Hb.
        congruence.
Qed.

(** C1, as stated, fails: when the second data line does not parse, the
    player of the first data line stays in the collection. *)
Lemma load_failure_not_empty :
  ~ (forall text, snd (load_lines (data_lines text) []) = false ->
                  players (Leaderboard_init (Some text)) = []).
Proof.
  intros H. specialize (H half_read_text eq_refl). vm_compute in H. discriminate.
Qed.

(** C1, amended: when a data line fails to parse, the load stops at that
    line: the collection is what loading the lines before it gives (their
    players stay, no later line is read), and it is empty exactly when all
    the lines before the failing one are blank. *)
Theorem load_failure_keeps_earlier (text : str) :
  snd (load_lines (data_lines text) []) = false ->
  exists pre bad post,
    data_lines text = pre ++ bad :: post /\ ~ blank bad /\
    parse_line (strip bad) = None /\
    load_lines pre [] = (players (Leaderboard_init (Some text)), true) /\
    (players (Leaderboard_init (Some text)) = [] <-> Forall blank pre).
Proof.
  intros Hfail.
  destruct (load_lines_failure _ _ Hfail) as (pre & bad & post & Heq & Hbad & Hparse & Hpre).
  exists pre, bad, post. repeat split; try assumption.
  - intros Hnil. apply (load_lines_empty _ _ _ Hpre) in Hnil. tauto.
  - intros Hall. apply (load_lines_empty _ _ _ Hpre). now split.
Qed.

Lemma load_failure_keeps_earlier_witness :
  exists pre bad post,
    data_lines half_read_text = pre ++ bad :: post /\ ~ blank bad /\
    parse_line (strip bad) = None /\
    load_lines pre [] = (players (Leaderboard_init (Some half_read_text)), true) /\
    (players (Leaderboard_init (Some half_read_text)) = [] <-> Forall blank pre).
Proof.
  apply (load_failure_keeps_earlier half_read_text). vm_compute. reflexivity.
Defined.

Lemma loaded_streak_zero_witness :
  option_map current_streak (dict_get (S_ "Alice") (players streak_board)) = Some 1 /\
  current_streak reloaded_alice = 0.
Proof.
  split; [reflexivity|].
  apply (proj1 (proj2 loaded_streak_zero) (disk streak_board) (S_ "Alice")).
  vm_compute. left. reflexivity.
Defined.

(** ** Saving and loading back *)

Lemma clean_name_lacks (nm : str) :
  clean_name nm = true -> lacks "|" nm /\ lacks LF nm /\ lacks CR nm.
Proof.
  unfold clean_name. intros H. apply andb_prop in H as [H _].
  rewrite forallb_forall in H.
  repeat split; apply Forall_forall; intros c Hc; specialize (H c Hc);
    apply negb_true_iff in H; apply orb_false_elim in H as [H H3];
    apply orb_false_elim in H as [H1 H2]; assumption.
Qed.

Lemma str_of_Z_lacks (d : ascii) (z : Z) :
  num_char d = false -> lacks d (str_of_Z z).
Proof. intros Hd. apply (in_class_lacks num_char); [exact Hd | apply str_of_Z_num]. Qed.

Lemma history_lacks (d : ascii) (hs : list Z) :
  field_char d = false -> lacks d (join [","%char] (map str_of_Z hs)).
Proof.
  intros Hd. apply (in_class_lacks field_char); [exact Hd | apply join_field_chars].
Qed.

Lemma player_fields_lacks (d : ascii) (p : Player) :
  field_char d = false -> Ascii.eqb "|" d = false -> lacks d (name p) ->
  lacks d (player_fields p).
Proof.
  intros Hd Hbar Hname.
  assert (Hnum : num_char d = false).
  { unfold field_char in Hd. now apply orb_false_elim in Hd as [Hd _]. }
  unfold player_fields, S_. cbn [list_ascii_of_string app].
  repeat (apply Forall_app; split;
          [first [exact Hname | now apply str_of_Z_lacks]|];
          apply Forall_cons; [exact Hbar|]).
  now apply history_lacks.
Qed.

Lemma split_player_fields (p : Player) :
  lacks "|" (name p) ->
  split "|" (player_fields p) =
  [name p; str_of_Z (score p); str_of_Z (games_played p);
   str_of_Z (best_score p); join [","%char] (map str_of_Z (score_history p))].
Proof.
  intros Hname. unfold player_fields, S_. cbn [list_ascii_of_string app].
  rewrite split_app by exact Hname.
  rewrite !split_app by (apply str_of_Z_lacks; reflexivity).
  rewrite split_lacks by (apply history_lacks; reflexivity).
  reflexivity.
Qed.

Lemma parse_player_fields (p : Player) :
  lacks "|" (name p) -> score_history p <> [] ->
  parse_line (player_fields p) = Some (reset_streak p).
Proof.
  intros Hname Hhist. unfold parse_line.
  rewrite split_player_fields by exact Hname.
  cbn [nth_error]. rewrite !py_int_str_of_Z.
  now rewrite history_roundtrip.
Qed.

Lemma player_fields_ends (p : Player) :
  score_history p <> [] -> ends_with_digit (player_fields p).
Proof.
  intros Hhist. unfold player_fields.
  repeat apply ends_with_digit_app.
  apply join_ends; [now destruct (score_history p)|].
  apply Forall_map, Forall_forall. intros z _. apply str_of_Z_ends.
Qed.

Lemma strip_player_line (p : Player) :
  clean_name (name p) = true -> score_history p <> [] ->
  strip (player_line p) = player_fields p.
Proof.
  intros Hclean Hhist. unfold strip, player_line.
  rewrite strip_with_snoc by reflexivity.
  apply strip_with_id.
  - intros c t Heq. unfold clean_name in Hclean.
    apply andb_prop in Hclean as [_ Hfirst].
    unfold player_fields in Heq.
    destruct (name p) as [|c' nm].
    + cbn in Heq. injection Heq as <- _. reflexivity.
    + cbn in Heq. injection Heq as <- _. now apply negb_true_iff.
  - intros c t Heq. apply digit_not_space.
    eapply ends_with_digit_last; [|exact Heq]. now apply player_fields_ends.
Qed.

Lemma player_fields_not_nil (p : Player) :
  score_history p <> [] -> player_fields p <> [].
Proof.
  intros Hhist Hnil. destruct (player_fields_ends p Hhist) as (t & c & Heq & _).
  rewrite Hnil in Heq. now destruct t.
Qed.

Lemma load_player_lines (ps : list Player) :
  Forall savable ps ->
  forall d, load_lines (map player_line ps) d = (fold_left put ps d, true).
Proof.
  induction 1 as [|p ps [Hclean Hhist] Hps IH]; intros d; [reflexivity|].
  cbn [map]. rewrite load_lines_cons.
  rewrite strip_player_line by assumption.
  destruct (player_fields p) as [|c s] eqn:Hf;
    [now apply player_fields_not_nil in Hf|].
  rewrite <- Hf, parse_player_fields;
    [|now apply clean_name_lacks | exact Hhist].
  apply IH.
Qed.

Lemma data_lines_file_text (now : datetime) (ps : list Player) :
  Forall savable ps ->
  data_lines (file_text now ps) = map player_line ps.
Proof.
  intros Hps. unfold data_lines.
  rewrite file_text_lines, readlines_concat.
  - cbn [map skipn]. now rewrite map_map.
  - destruct (header_lines_lack_breaks now) as [HLF _].
    inversion HLF as [|? ? H1 H2']; inversion H2' as [|? ? H2 _]; subst.
    repeat (constructor; [assumption|]).
    apply Forall_map. eapply Forall_impl; [|exact Hps].
    intros p [Hclean _]. apply player_fields_lacks;
      [reflexivity | reflexivity | now apply clean_name_lacks].
  - destruct (header_lines_lack_breaks now) as [_ HCR].
    inversion HCR as [|? ? H1 H2']; inversion H2' as [|? ? H2 _]; subst.
    repeat (constructor; [assumption|]).
    apply Forall_map. eapply Forall_impl; [|exact Hps].
    intros p [Hclean _]. apply player_fields_lacks;
      [reflexivity | reflexivity | now apply clean_name_lacks].
Qed.

Lemma str_eqb_eq (a b : str) : str_eqb a b = true <-> a = b.
Proof.
  revert b. induction a as [|x a IH]; intros [|y b]; cbn [str_eqb];
    try (split; [discriminate | discriminate]); [now split|].
  rewrite andb_true_iff, Ascii.eqb_eq, IH.
  split; [intros [-> ->]; reflexivity | intros [= -> ->]; now split].
Qed.

Lemma str_eqb_refl (a : str) : str_eqb a a = true.
Proof. now apply str_eqb_eq. Qed.

Lemma str_eqb_neq (a b : str) : a <> b -> str_eqb a b = false.
Proof.
  intros Hne. destruct (str_eqb a b) eqn:H; [|reflexivity].
  now apply str_eqb_eq in H.
Qed.

Lemma dict_set_fresh (k : str) (v : Player) (d : dict) :
  ~ In k (map fst d) -> dict_set k v d = d ++ [(k, v)].
Proof.
  induction d as [|[k' v'] d IH]; intros Hk; [reflexivity|].
  cbn [dict_set app]. cbn [map fst In] in Hk.
  rewrite str_eqb_neq by (intros ->; apply Hk; now left).
  rewrite IH; [reflexivity | tauto].
Qed.

Lemma fold_put_fresh (ps : list Player) :
  forall d, NoDup (map fst d ++ map name ps) ->
            fold_left put ps d = d ++ map saved_entry ps.
Proof.
  induction ps as [|p ps IH]; intros d Hnd; cbn [fold_left map].
  - now rewrite app_nil_r.
  - cbn [map] in Hnd. unfold put at 2.
    rewrite dict_set_fresh.
    + rewrite IH.
      * now rewrite <- app_assoc.
      * rewrite map_app, <- app_assoc. exact Hnd.
    + apply NoDup_remove_2 in Hnd. intros Hin. apply Hnd.
      apply in_or_app. now left.
Qed.

Lemma dict_get_saved (ps : list Player) (p : Player) :
  NoDup (map name ps) -> In p ps ->
  dict_get (name p) (map saved_entry ps) = Some (reset_streak p).
Proof.
  induction ps as [|x ps IH]; intros Hnd Hin; [contradiction|].
  cbn [map dict_get saved_entry]. inversion Hnd as [|? ? Hx Hnd']; subst.
  destruct Hin as [-> | Hin]; [now rewrite str_eqb_refl|].
  rewrite str_eqb_neq; [now apply IH|].
  intros Heq. apply Hx. rewrite <- Heq. now apply in_map.
Qed.

Lemma wf_names (d : dict) :
  wf_players d -> NoDup (map name (dict_values d)) /\
                  Forall (fun p => score_history p <> []) (dict_values d).
Proof.
  intros [Hnd Hok]. unfold dict_values. split.
  - replace (map name (map snd d)) with (map fst d); [exact Hnd|].
    rewrite map_map. apply map_ext_Forall.
    eapply Forall_impl; [|exact Hok]. now intros e [He _].
  - apply Forall_map. eapply Forall_impl; [|exact Hok]. now intros e [_ He].
Qed.

Lemma top_players_wf (n : Z) (lb : Leaderboard) :
  wf_players (players lb) ->
  NoDup (map name (get_top_players n lb)) /\
  Forall (fun p => score_history p <> []) (get_top_players n lb).
Proof.
  intros Hwf. destruct (wf_names _ Hwf) as [Hnd Hhist].
  pose proof (sorted_desc_perm (dict_values (players lb))) as Hperm.
  destruct (slice_to_prefix n (sorted_desc (dict_values (players lb))))
    as (rest & Hrest).
  fold (get_top_players n lb) in Hrest. split.
  - apply (Permutation_map name) in Hperm.
    apply (Permutation_NoDup Hperm) in Hnd.
    rewrite Hrest, map_app in Hnd. now apply NoDup_app_remove_r in Hnd.
  - rewrite Forall_forall in *. intros p Hp. apply Hhist.
    apply (Permutation_in _ (Permutation_sym Hperm)).
    rewrite Hrest. apply in_or_app. now left.
Qed.

Lemma save_load_players (now : datetime) (lb : Leaderboard) :
  wf_players (players lb) ->
  Forall (fun p => clean_name (name p) = true) (get_top_players 10 lb) ->
  reloaded now lb = map saved_entry (get_top_players 10 lb).
Proof.
  intros Hwf Hclean. destruct (top_players_wf 10 lb Hwf) as [Hnd Hhist].
  assert (Hsav : Forall savable (get_top_players 10 lb)).
  { rewrite Forall_forall in *. intros p Hp. split; auto. }
  unfold reloaded, Leaderboard_init, load_leaderboard, save_leaderboard.
  cbn [disk players].
  rewrite data_lines_file_text, load_player_lines by exact Hsav.
  cbn [fst]. now rewrite fold_put_fresh.
Qed.

(** C2, as stated, fails: add_score accepts the name "a|b", its saved line
    does not parse, and the fresh leaderboard holds no such player. *)
Lemma roundtrip_fails_on_separator :
  ~ (forall now lb p, In p (get_top_players 10 lb) ->
                      reproduced (reloaded now lb) p).
Proof.
  intros H.
  destruct (H (mkDatetime 2024 5 17 9 30 0) pipe_board
              (Player_init (S_ "a|b") 5)) as (q & Hq & _).
  - vm_compute. now left.
  - vm_compute in Hq. discriminate.
Qed.

(** C2, amended: for a leaderboard whose keys are distinct and are the names
    of their records, with no empty history, and whose top 10 names carry no
    '|', no line feed, no carriage return and no leading white space, a
    fresh leaderboard built from the saved file holds exactly the top 10
    players in rank order, each with the same current_score, best_score,
    games_played and score_history (and streak 0). *)
Theorem save_load_roundtrip (now : datetime) (lb : Leaderboard) :
  wf_players (players lb) ->
  Forall (fun p => clean_name (name p) = true) (get_top_players 10 lb) ->
  reloaded now lb = map saved_entry (get_top_players 10 lb) /\
  forall p, In p (get_top_players 10 lb) -> reproduced (reloaded now lb) p.
Proof.
  intros Hwf Hclean.
  pose proof (save_load_players now lb Hwf Hclean) as Heq.
  split; [exact Heq|].
  intros p Hp. exists (reset_streak p). rewrite Heq.
  destruct (top_players_wf 10 lb Hwf) as [Hnd _].
  rewrite dict_get_saved by assumption. repeat split.
Qed.

(** ** Every leaderboard the program builds is well formed *)

Lemma dict_set_keys (k : str) (v : Player) (d : dict) :
  map fst (dict_set k v d) =
  if existsb (str_eqb k) (map fst d) then map fst d else map fst d ++ [k].
Proof.
  induction d as [|[k' v'] d IH]; [reflexivity|].
  cbn [dict_set map fst existsb].
  destruct (str_eqb k k'); [reflexivity|].
  cbn [map fst orb]. rewrite IH. now destruct (existsb _ _).
Qed.

Lemma dict_set_wf (k : str) (v : Player) (d : dict) :
  wf_players d -> entry_ok (k, v) -> wf_players (dict_set k v d).
Proof.
  intros [Hnd Hok] Hv. split.
  - rewrite dict_set_keys.
    destruct (existsb (str_eqb k) (map fst d)) eqn:Hex; [exact Hnd|].
    apply (Permutation_NoDup (Permutation_cons_append (map fst d) k)).
    constructor; [|exact Hnd].
    intros Hin. apply not_true_iff_false in Hex. apply Hex.
    apply existsb_exists. exists k. split; [exact Hin | apply str_eqb_refl].
  - induction Hok as [|[k' v'] d Hx Hd IH]; cbn [dict_set].
    + now constructor.
    + inversion Hnd; subst.
      destruct (str_eqb k k') eqn:Hk.
      * apply str_eqb_eq in Hk. subst k'. now constructor.
      * constructor; [exact Hx | now apply IH].
Qed.

Lemma dict_get_In (k : str) (d : dict) (p : Player) :
  dict_get k d = Some p -> In (k, p) d.
Proof.
  induction d as [|[k' v'] d IH]; cbn [dict_get]; [discriminate|].
  destruct (str_eqb k k') eqn:Hk.
  - apply str_eqb_eq in Hk. intros [= ->]. subst. now left.
  - intros H. right. now apply IH.
Qed.

Lemma split_not_nil (sep : ascii) (s : str) : split sep s <> [].
Proof.
  destruct s as [|c s]; cbn [split]; [discriminate|].
  destruct (Ascii.eqb c sep); [discriminate|].
  destruct (split sep s); discriminate.
Qed.

Lemma map_int_not_nil (l : list str) (hs : list Z) :
  l <> [] -> map_int l = Some hs -> hs <> [].
Proof.
  destruct l as [|w ws]; [contradiction|]. intros _. cbn [map_int].
  destruct (py_int w), (map_int ws); try discriminate.
  intros [= <-]. discriminate.
Qed.

Lemma parse_line_ok (s : str) (p : Player) :
  parse_line s = Some p -> entry_ok (name p, p).
Proof.
  unfold parse_line.
  destruct (nth_error (split "|" s) 4) as [p4|];
    [|repeat match goal with
             | |- context [match ?x with _ => _ end] => destruct x
             end; discriminate].
  destruct (map_int (split "," p4)) as [hs|] eqn:Hhs;
    [|repeat match goal with
             | |- context [match ?x with _ => _ end] => destruct x
             end; discriminate].
  apply map_int_not_nil in Hhs; [|apply split_not_nil].
  repeat match goal with
         | |- context [match ?x with _ => _ end] => destruct x; try discriminate
         end.
  intros [= <-]. now split.
Qed.

Lemma load_lines_wf (lines : list str) :
  forall ps, wf_players ps -> wf_players (fst (load_lines lines ps)).
Proof.
  induction lines as [|line rest IH]; intros ps Hps; [exact Hps|].
  rewrite load_lines_cons.
  destruct (strip line) as [|c s]; [now apply IH|].
  destruct (parse_line (c :: s)) as [p|] eqn:Hparse; [|exact Hps].
  apply IH, dict_set_wf; [exact Hps | eapply parse_line_ok; eauto].
Qed.

Lemma Leaderboard_init_wf (d : option str) : wf_players (players (Leaderboard_init d)).
Proof.
  assert (Hnil : wf_players []) by (split; constructor).
  unfold Leaderboard_init, load_leaderboard. cbn [disk].
  destruct d as [text|]; cbn [players]; [now apply load_lines_wf | exact Hnil].
Qed.

Lemma add_score_wf (now : datetime) (lb : Leaderboard) (nm : str) (r : raw_score) :
  wf_players (players lb) -> wf_players (players (snd (add_score now lb nm r))).
Proof.
  intros Hwf. unfold add_score.
  destruct (validate_name nm), (validate_score r); cbn [negb]; try exact Hwf.
  destruct (int_of_raw r) as [sc|]; [|exact Hwf].
  cbn [snd save_leaderboard players].
  destruct (dict_get nm (players lb)) as [p|] eqn:Hget.
  - apply dict_set_wf; [exact Hwf|].
    apply dict_get_In in Hget. destruct Hwf as [_ Hok].
    rewrite Forall_forall in Hok. destruct (Hok _ Hget) as [Hname _].
    destruct (update_score_fields p sc) as (Hn & _ & _ & Hh & _).
    split; cbn [fst snd]; [now rewrite Hn|].
    rewrite Hh. now destruct (score_history p).
  - apply dict_set_wf; [exact Hwf|]. split; [reflexivity | discriminate].
Qed.

Lemma reachable_wf (lb : Leaderboard) : reachable lb -> wf_players (players lb).
Proof.
  induction 1 as [d | now lb nm r _ IH];
    [apply Leaderboard_init_wf | now apply add_score_wf].
Qed.

Lemma save_load_roundtrip_witness :
  let t := mkDatetime 2024 5 17 9 31 0 in
  reloaded t sample_board = map saved_entry (get_top_players 10 sample_board) /\
  forall p, In p (get_top_players 10 sample_board) ->
            reproduced (reloaded t sample_board) p.
Proof.
  apply (save_load_roundtrip (mkDatetime 2024 5 17 9 31 0) sample_board).
  - split; vm_compute.
    + repeat constructor; simpl; intuition discriminate.
    + repeat constructor; discriminate.
  - vm_compute. repeat constructor.
Defined.

(** The other conditions on the names are needed as well: a name accepted
    by add_score with a blank in front, or with a line feed inside, is not
    read back either. *)
Lemma roundtrip_fails_on_leading_blank :
  let t := mkDatetime 2024 5 17 9 30 0 in
  let lb := snd (add_score t (Leaderboard_init None) (S_ " Al") (RawStr (S_ "5"))) in
  get_top_players 10 lb = [Player_init (S_ " Al") 5] /\
  dict_get (S_ " Al") (reloaded t lb) = None /\
  option_map score (dict_get (S_ "Al") (reloaded t lb)) = Some 5.
Proof. vm_compute. repeat split. Qed.

Lemma roundtrip_fails_on_line_feed :
  let t := mkDatetime 2024 5 17 9 30 0 in
  let nm := S_ "A" ++ [LF] ++ S_ "B" in
  let lb := snd (add_score t (Leaderboard_init None) nm (RawStr (S_ "5"))) in
  get_top_players 10 lb = [Player_init nm 5] /\ reloaded t lb = [].
Proof. vm_compute. repeat split. Qed.

(** The scenario of the specification: Alice scores 100, 50, 200. *)
Example alice_scenario :
  after_updates (S_ "Alice") 100 [50; 200] =
  {| name := S_ "Alice"; score := 200; games_played := 3; best_score := 200;
     score_history := [100; 50; 200]; current_streak := 1 |}.
Proof. reflexivity. Qed.

(** ** More on add_score *)

Lemma dict_get_set_same (k : str) (v : Player) (d : dict) :
  dict_get k (dict_set k v d) = Some v.
Proof.
  induction d as [|[k' v'] d IH]; cbn [dict_set dict_get].
  - now rewrite str_eqb_refl.
  - destruct (str_eqb k k') eqn:Hk; cbn [dict_get]; now rewrite Hk.
Qed.

Lemma dict_get_set_other (k k' : str) (v : Player) (d : dict) :
  k' <> k -> dict_get k' (dict_set k v d) = dict_get k' d.
Proof.
  intros Hne. induction d as [|[k2 v2] d IH]; cbn [dict_set dict_get].
  - now rewrite str_eqb_neq.
  - destruct (str_eqb k k2) eqn:Hk; cbn [dict_get].
    + apply str_eqb_eq in Hk. subst k2. now rewrite str_eqb_neq.
    + destruct (str_eqb k' k2); [reflexivity | exact IH].
Qed.

Lemma dict_get_None (k : str) (d : dict) :
  dict_get k d = None <-> ~ In k (map fst d).
Proof.
  induction d as [|[k' v'] d IH]; cbn [dict_get map fst In]; [tauto|].
  destruct (str_eqb k k') eqn:Hk.
  - apply str_eqb_eq in Hk. subst. split; [discriminate | tauto].
  - rewrite IH. split; [|tauto].
    intros Hd [Heq | Hin]; [|tauto].
    subst. now rewrite str_eqb_refl in Hk.
Qed.

Lemma dict_get_Some_key (k : str) (d : dict) (p : Player) :
  dict_get k d = Some p -> existsb (str_eqb k) (map fst d) = true.
Proof.
  intros Hget. destruct (existsb (str_eqb k) (map fst d)) eqn:Hex; [reflexivity|].
  assert (Hnone : dict_get k d = None).
  { apply dict_get_None. intros Hin. apply not_true_iff_false in Hex. apply Hex.
    apply existsb_exists. exists k. split; [exact Hin | apply str_eqb_refl]. }
  congruence.
Qed.

Lemma validate_score_true (r : raw_score) :
  validate_score r = true ->
  exists sc, int_of_raw r = Some sc /\ 0 <= sc <= 10000.
Proof.
  unfold validate_score. destruct (int_of_raw r) as [sc|]; [|discriminate].
  destruct (Z.ltb_spec sc 0); [discriminate|].
  destruct (Z.ltb_spec 10000 sc); [discriminate|].
  intros _. exists sc. split; [reflexivity | lia].
Qed.

Lemma validate_score_in_range (r : raw_score) (sc : Z) :
  int_of_raw r = Some sc -> 0 <= sc <= 10000 -> validate_score r = true.
Proof.
  intros Hr Hsc. unfold validate_score. rewrite Hr.
  destruct (Z.ltb_spec sc 0); [lia|].
  destruct (Z.ltb_spec 10000 sc); [lia | reflexivity].
Qed.

Lemma add_score_accepted (now : datetime) (lb : Leaderboard) (nm : str)
    (r : raw_score) (sc : Z) :
  validate_name nm = true -> int_of_raw r = Some sc -> 0 <= sc <= 10000 ->
  add_score now lb nm r =
  (true, save_leaderboard now
           {| players := dict_set nm (stored lb nm sc) (players lb);
              disk := disk lb |}).
Proof.
  intros Hnm Hr Hsc. unfold add_score, stored.
  rewrite Hnm, (validate_score_in_range r sc Hr Hsc), Hr. cbn [negb].
  now destruct (dict_get nm (players lb)).
Qed.

Lemma add_score_players (now : datetime) (lb : Leaderboard) (nm : str)
    (r : raw_score) :
  players (snd (add_score now lb nm r)) =
  match accepted (now, nm, r) with
  | Some (_, sc) => dict_set nm (stored lb nm sc) (players lb)
  | None => players lb
  end.
Proof.
  unfold accepted.
  destruct (validate_name nm) eqn:Hnm.
  - destruct (validate_score r) eqn:Hr; cbn [andb].
    + destruct (validate_score_true r Hr) as (sc & Hsc & Hrange).
      rewrite (add_score_accepted now lb nm r sc Hnm Hsc Hrange), Hsc.
      reflexivity.
    + rewrite add_score_rejected by now right. reflexivity.
  - rewrite add_score_rejected by now left. reflexivity.
Qed.

(** X1: an accepted score for a name that is not on the leaderboard yet
    returns True and adds one record, last in iteration order, with
    games_played 1 and the score as current and best score; the other
    entries are untouched, and the file is saved from the new collection. *)
Theorem add_score_new_player (now : datetime) (lb : Leaderboard) (nm : str)
    (r : raw_score) (sc : Z) :
  validate_name nm = true -> int_of_raw r = Some sc -> 0 <= sc <= 10000 ->
  dict_get nm (players lb) = None ->
  add_score now lb nm r =
  (true, save_leaderboard now
           {| players := players lb ++ [(nm, Player_init nm sc)];
              disk := disk lb |}).
Proof.
  intros Hnm Hr Hsc Hnew.
  rewrite (add_score_accepted now lb nm r sc Hnm Hr Hsc).
  unfold stored. rewrite Hnew.
  rewrite dict_set_fresh by now apply dict_get_None.
  reflexivity.
Qed.

Lemma add_score_new_player_witness :
  let t := mkDatetime 2024 5 17 9 30 0 in
  add_score t two_players (S_ "Cy") (RawStr (S_ " 15 ")) =
  (true, save_leaderboard t
           {| players := players two_players ++ [(S_ "Cy", Player_init (S_ "Cy") 15)];
              disk := disk two_players |}).
Proof.
  apply add_score_new_player; try reflexivity. lia.
Defined.

(** X2: an accepted score for a name already on the leaderboard returns
    True and replaces that record by its update, in place: the keys and
    their order are the same as before. *)
Theorem add_score_existing_player (now : datetime) (lb : Leaderboard)
    (nm : str) (r : raw_score) (sc : Z) (p : Player) :
  validate_name nm = true -> int_of_raw r = Some sc -> 0 <= sc <= 10000 ->
  dict_get nm (players lb) = Some p ->
  fst (add_score now lb nm r) = true /\
  dict_get nm (players (snd (add_score now lb nm r))) = Some (update_score p sc) /\
  map fst (players (snd (add_score now lb nm r))) = map fst (players lb).
Proof.
  intros Hnm Hr Hsc Hold.
  rewrite (add_score_accepted now lb nm r sc Hnm Hr Hsc).
  unfold stored. rewrite Hold. cbn [fst snd save_leaderboard players].
  split; [reflexivity|]. split; [apply dict_get_set_same|].
  rewrite dict_set_keys. now rewrite (dict_get_Some_key _ _ _ Hold).
Qed.

Lemma add_score_existing_player_witness :
  let t := mkDatetime 2024 5 17 9 30 0 in
  let after := add_score t two_players (S_ "Ann") (RawInt 30) in
  fst after = true /\
  dict_get (S_ "Ann") (players (snd after)) =
    Some (update_score (Player_init (S_ "Ann") 10) 30) /\
  map fst (players (snd after)) = map fst (players two_players).
Proof.
  apply add_score_existing_player; try reflexivity. lia.
Defined.

(** X3: whatever its arguments and its result, add_score(name, ...) leaves
    the record of every other name as it was, removes no key and adds at
    most one, at the end. *)
Theorem add_score_frame (now : datetime) (lb : Leaderboard) (nm : str)
    (r : raw_score) :
  (forall k, k <> nm ->
     dict_get k (players (snd (add_score now lb nm r))) = dict_get k (players lb)) /\
  exists added,
    map fst (players (snd (add_score now lb nm r))) = map fst (players lb) ++ added /\
    (length added <= 1)%nat.
Proof.
  rewrite add_score_players.
  destruct (accepted (now, nm, r)) as [[k' sc]|].
  - split; [intros k Hk; apply dict_get_set_other; exact Hk|].
    rewrite dict_set_keys.
    destruct (existsb (str_eqb nm) (map fst (players lb))).
    + exists []. split; [now rewrite app_nil_r | simpl; lia].
    + exists [nm]. split; [reflexivity | simpl; lia].
  - split; [reflexivity|]. exists []. split; [now rewrite app_nil_r | simpl; lia].
Qed.

Lemma add_score_frame_witness :
  let t := mkDatetime 2024 5 17 9 30 0 in
  dict_get (S_ "Ben") (players (snd (add_score t two_players (S_ "Ann") (RawInt 30))))
  = dict_get (S_ "Ben") (players two_players).
Proof.
  apply (proj1 (add_score_frame (mkDatetime 2024 5 17 9 30 0) two_players
                  (S_ "Ann") (RawInt 30))).
  discriminate.
Defined.

(** X4: a score given to add_score as an int and as the decimal text of that
    int (what str() prints) have the same effect and the same result. *)
Theorem add_score_text_or_int (now : datetime) (lb : Leaderboard) (nm : str)
    (z : Z) :
  add_score now lb nm (RawStr (str_of_Z z)) = add_score now lb nm (RawInt z).
Proof.
  unfold add_score, validate_score. cbn [int_of_raw].
  now rewrite py_int_str_of_Z.
Qed.

(** ** Sessions that start without a file *)

Lemma run_cons (c : call) (cs : list call) (lb : Leaderboard) :
  run (c :: cs) lb =
  run cs (snd (add_score (fst (fst c)) lb (snd (fst c)) (snd c))).
Proof. destruct c as [[now nm] r]. reflexivity. Qed.

Lemma accepted_spec (now : datetime) (nm : str) (r : raw_score) (k : str) (sc : Z) :
  accepted (now, nm, r) = Some (k, sc) ->
  k = nm /\ validate_name nm = true /\ int_of_raw r = Some sc /\ 0 <= sc <= 10000.
Proof.
  unfold accepted.
  destruct (validate_name nm); [|discriminate].
  destruct (validate_score r) eqn:Hr; [|discriminate]. cbn [andb].
  destruct (validate_score_true r Hr) as (sc' & Hsc & Hrange).
  rewrite Hsc. cbn [option_map]. intros [= <- <-]. auto.
Qed.

Lemma dict_set_Forall_entry (P : str * Player -> Prop) (k : str) (v : Player)
    (d : dict) :
  P (k, v) -> Forall P d -> Forall P (dict_set k v d).
Proof.
  intros Hv. induction 1 as [|[k' v'] d Hx Hd IH]; cbn [dict_set].
  - now constructor.
  - destruct (str_eqb k k') eqn:Hk.
    + apply str_eqb_eq in Hk. subst k'. now constructor.
    + now constructor.
Qed.

Lemma dict_set_NoDup (k : str) (v : Player) (d : dict) :
  NoDup (map fst d) -> NoDup (map fst (dict_set k v d)).
Proof.
  intros Hnd. rewrite dict_set_keys.
  destruct (existsb (str_eqb k) (map fst d)) eqn:Hex; [exact Hnd|].
  apply (Permutation_NoDup (Permutation_cons_append (map fst d) k)).
  constructor; [|exact Hnd].
  intros Hin. apply not_true_iff_false in Hex. apply Hex.
  apply existsb_exists. exists k. split; [exact Hin | apply str_eqb_refl].
Qed.

Lemma record_ok_init (nm : str) (sc : Z) :
  validate_name nm = true -> 0 <= sc <= 10000 -> record_ok (nm, Player_init nm sc).
Proof.
  intros Hnm Hsc. unfold record_ok. cbn [fst snd Player_init name score_history
    current_streak games_played].
  split; [reflexivity|]. split; [exact Hnm|].
  split; [repeat constructor; lia|].
  split; [apply Player_init_invariants | lia].
Qed.

Lemma record_ok_update (k : str) (p : Player) (sc : Z) :
  record_ok (k, p) -> 0 <= sc <= 10000 -> record_ok (k, update_score p sc).
Proof.
  unfold record_ok. cbn [fst snd]. intros (Hname & Hvalid & Hrange & Hinv & Hstreak) Hsc.
  destruct (update_score_fields p sc) as (Hn & _ & Hg & Hh & _).
  rewrite Hn, Hg, Hh.
  split; [exact Hname|]. split; [exact Hvalid|].
  split; [apply Forall_app; split; [exact Hrange | now repeat constructor]|].
  split; [now apply update_score_invariants|].
  unfold update_score; cbn.
  destruct (best_score p <? sc); cbn; lia.
Qed.

Lemma add_score_record_ok (now : datetime) (lb : Leaderboard) (nm : str)
    (r : raw_score) :
  Forall record_ok (players lb) ->
  Forall record_ok (players (snd (add_score now lb nm r))).
Proof.
  intros Hok. rewrite add_score_players.
  destruct (accepted (now, nm, r)) as [[k sc]|] eqn:Hacc; [|exact Hok].
  apply accepted_spec in Hacc as (_ & Hnm & _ & Hsc).
  apply dict_set_Forall_entry; [|exact Hok].
  unfold stored. destruct (dict_get nm (players lb)) as [p|] eqn:Hget.
  - apply record_ok_update; [|exact Hsc].
    apply dict_get_In in Hget. rewrite Forall_forall in Hok. now apply Hok.
  - now apply record_ok_init.
Qed.

Lemma add_score_NoDup (now : datetime) (lb : Leaderboard) (nm : str)
    (r : raw_score) :
  NoDup (map fst (players lb)) ->
  NoDup (map fst (players (snd (add_score now lb nm r)))).
Proof.
  intros Hnd. rewrite add_score_players.
  destruct (accepted (now, nm, r)) as [[k sc]|]; [|exact Hnd].
  now apply dict_set_NoDup.
Qed.

(** X5: in a session that starts without a file, after any sequence of
    add_score calls (accepted or not) the keys are distinct and every entry
    meets the data model: the key is the record's name and passes
    validate_name, every recorded score is between 0 and 10000, the four
    record invariants hold, and 0 <= current_streak < games_played. *)
Theorem session_data_model (calls : list call) :
  NoDup (map fst (players (run calls (Leaderboard_init None)))) /\
  Forall record_ok (players (run calls (Leaderboard_init None))).
Proof.
  assert (H : forall lb, NoDup (map fst (players lb)) /\ Forall record_ok (players lb) ->
                         NoDup (map fst (players (run calls lb))) /\
                         Forall record_ok (players (run calls lb))).
  { induction calls as [|c cs IH]; intros lb Hlb; [exact Hlb|].
    rewrite run_cons. apply IH. destruct Hlb as [Hnd Hok].
    split; [now apply add_score_NoDup | now apply add_score_record_ok]. }
  apply H. split; constructor.
Qed.

Lemma history_fold_update (l : list Z) :
  forall p, score_history (fold_left update_score l p) = score_history p ++ l.
Proof.
  induction l as [|s l IH]; intros p; cbn [fold_left]; [now rewrite app_nil_r|].
  rewrite IH. destruct (update_score_fields p s) as (_ & _ & _ & Hh & _).
  now rewrite Hh, <- app_assoc.
Qed.

Lemma fold_update_invariants (l : list Z) :
  forall p, invariants p -> invariants (fold_left update_score l p).
Proof.
  induction l as [|s l IH]; intros p Hp; cbn [fold_left]; [exact Hp|].
  now apply IH, update_score_invariants.
Qed.

Lemma run_get (nm : str) (calls : list call) :
  forall lb,
    dict_get nm (players (run calls lb)) =
    match dict_get nm (players lb) with
    | Some p => Some (fold_left update_score (scores_of nm calls) p)
    | None =>
        match scores_of nm calls with
        | [] => None
        | s :: rest => Some (fold_left update_score rest (Player_init nm s))
        end
    end.
Proof.
  induction calls as [|c cs IH]; intros lb.
  - cbn [run fold_left scores_of]. now destruct (dict_get nm (players lb)).
  - rewrite run_cons, IH, add_score_players.
    destruct c as [[now k] r]. cbn [fst snd scores_of].
    destruct (accepted (now, k, r)) as [[k' sc]|] eqn:Hacc; [|reflexivity].
    apply accepted_spec in Hacc as (-> & _).
    destruct (str_eqb nm k) eqn:Hk.
    + apply str_eqb_eq in Hk. subst k.
      rewrite dict_get_set_same. unfold stored.
      now destruct (dict_get nm (players lb)).
    + rewrite dict_get_set_other; [reflexivity|].
      intros ->. now rewrite str_eqb_refl in Hk.
Qed.

(** X6: in a session that starts without a file, the record of a name is
    determined by the scores accepted for that name, in call order: no record
    if there is none, otherwise the record created with the first and updated
    with the others.  So its score_history is exactly that list of scores,
    games_played is their number and best_score their maximum. *)
Theorem session_record (calls : list call) (nm : str) :
  dict_get nm (players (run calls (Leaderboard_init None))) =
    match scores_of nm calls with
    | [] => None
    | s :: rest => Some (after_updates nm s rest)
    end /\
  forall p, dict_get nm (players (run calls (Leaderboard_init None))) = Some p ->
            score_history p = scores_of nm calls /\
            games_played p = Z.of_nat (length (scores_of nm calls)) /\
            py_max (scores_of nm calls) = Some (best_score p).
Proof.
  rewrite run_get. cbn [Leaderboard_init load_leaderboard disk players dict_get].
  split; [reflexivity|].
  destruct (scores_of nm calls) as [|s rest]; [discriminate|].
  intros p [= <-].
  pose proof (fold_update_invariants rest _ (Player_init_invariants nm s))
    as (_ & Hlen & Hmax & _).
  rewrite history_fold_update in *. cbn [Player_init score_history app] in *.
  auto.
Qed.

Lemma session_record_witness :
  let p := after_updates (S_ "Alice") 100 [50] in
  score_history p = [100; 50] /\ games_played p = 2 /\
  py_max [100; 50] = Some (best_score p).
Proof.
  intros p.
  apply (proj2 (session_record
                  [(mkDatetime 2024 5 17 9 30 0, S_ "Alice", RawStr (S_ "100"));
                   (mkDatetime 2024 5 17 9 31 0, S_ "Bob", RawInt 7);
                   (mkDatetime 2024 5 17 9 32 0, S_ "Alice", RawStr (S_ "oops"));
                   (mkDatetime 2024 5 17 9 33 0, S_ "Alice", RawInt 50)]
                  (S_ "Alice")) p).
  reflexivity.
Defined.

(** ** Statistics *)

Lemma stored_fields (lb : Leaderboard) (nm : str) (sc : Z) :
  score (stored lb nm sc) = sc /\
  (exists pre, score_history (stored lb nm sc) = pre ++ [sc]) /\
  sc <= best_score (stored lb nm sc).
Proof.
  unfold stored. destruct (dict_get nm (players lb)) as [p|].
  - destruct (update_score_fields p sc) as (_ & Hs & _ & Hh & Hb).
    rewrite Hs, Hh, Hb. split; [reflexivity|].
    split; [now exists (score_history p) | lia].
  - cbn. split; [reflexivity|]. split; [now exists [] | lia].
Qed.

Lemma fold_add_shift (l : list Z) (a : Z) :
  fold_left Z.add l a = a + fold_left Z.add l 0.
Proof.
  revert a. induction l as [|x l IH]; intros a; cbn [fold_left]; [lia|].
  rewrite (IH (a + x)), (IH (0 + x)). lia.
Qed.

Lemma fold_max_ge (l : list Z) (a : Z) :
  a <= fold_left Z.max l a /\ Forall (fun x => x <= fold_left Z.max l a) l.
Proof.
  revert a. induction l as [|x l IH]; intros a; cbn [fold_left].
  - split; [lia | constructor].
  - destruct (IH (Z.max a x)) as [Ha Hl]. split; [lia|].
    constructor; [lia | exact Hl].
Qed.

Lemma py_sum_le (l : list Z) (m : Z) :
  Forall (fun x => x <= m) l -> py_sum l <= m * Z.of_nat (length l).
Proof.
  unfold py_sum. induction 1 as [|x l Hx Hl IH]; [cbn; lia|].
  cbn [fold_left length]. rewrite fold_add_shift. lia.
Qed.

Lemma py_sum_nonneg (l : list Z) : Forall (fun x => 0 <= x) l -> 0 <= py_sum l.
Proof.
  unfold py_sum. induction 1 as [|x l Hx Hl IH]; [cbn; lia|].
  cbn [fold_left]. rewrite fold_add_shift. lia.
Qed.

Lemma score_below_overflow : 10000 < float_overflow_bound.
Proof. reflexivity. Qed.

Lemma true_divide_returns (num den m : Z) :
  0 < den -> Z.abs num <= m * den -> m < float_overflow_bound ->
  true_divide num den = Returned (PyTrueDiv num den).
Proof.
  intros Hden Hnum Hm. unfold true_divide.
  destruct (Z.leb_spec (float_overflow_bound * Z.abs den) (Z.abs num)) as [Hov|];
    [|reflexivity].
  exfalso. revert Hm Hov. generalize float_overflow_bound. intros b Hm Hov.
  rewrite (Z.abs_eq den) in Hov by lia. nia.
Qed.

Lemma average_of_history (p : Player) :
  invariants p ->
  0 < games_played p /\
  get_average_score p = true_divide (py_sum (score_history p)) (games_played p).
Proof.
  intros (Hne & Hlen & _). unfold get_average_score.
  destruct (score_history p) as [|x l] eqn:Hh; [contradiction|].
  cbn [length Nat.eqb]. rewrite <- Hlen. cbn [length]. split; [lia | reflexivity].
Qed.

Lemma average_in_range (p : Player) :
  invariants p -> Forall (fun s => 0 <= s <= 10000) (score_history p) ->
  get_average_score p =
  Returned (PyTrueDiv (py_sum (score_history p)) (games_played p)).
Proof.
  intros Hinv Hrange. destruct (average_of_history p Hinv) as [Hpos ->].
  destruct Hinv as (_ & Hlen & _).
  apply (true_divide_returns _ _ 10000); [exact Hpos | | exact score_below_overflow].
  assert (Hlo : 0 <= py_sum (score_history p)).
  { apply py_sum_nonneg. eapply Forall_impl; [|exact Hrange]. intros; cbv beta in *; lia. }
  assert (Hhi : py_sum (score_history p) <= 10000 * Z.of_nat (length (score_history p))).
  { apply py_sum_le. eapply Forall_impl; [|exact Hrange]. intros; cbv beta in *; lia. }
  rewrite Z.abs_eq by exact Hlo. now rewrite <- Hlen.
Qed.

Lemma stored_record_ok (lb : Leaderboard) (nm : str) (sc : Z) :
  Forall record_ok (players lb) -> validate_name nm = true -> 0 <= sc <= 10000 ->
  record_ok (nm, stored lb nm sc).
Proof.
  intros Hok Hnm Hsc. unfold stored.
  destruct (dict_get nm (players lb)) as [p|] eqn:Hget.
  - apply record_ok_update; [|exact Hsc].
    apply dict_get_In in Hget. rewrite Forall_forall in Hok. now apply Hok.
  - now apply record_ok_init.
Qed.

Ltac two_players_ok :=
  unfold two_players, record_ok, invariants; cbn [players];
  repeat (constructor;
          [cbn [fst snd Player_init name score_history games_played best_score
                score current_streak length py_max fold_left];
           repeat split; try reflexivity; try discriminate; try lia;
           try (repeat constructor; lia); try (now exists [])|]);
  constructor.

(** X7: after an accepted add_score(name, s), get_player_stats(name) never
    returns None; whenever it returns, the stats show s as current score and
    as last entry of the history, and a best score of at least s.  On a
    leaderboard that meets the data model (as every session without a file
    does) it does return, without OverflowError.  The stats of every other
    name, or the OverflowError they raise, are what they were before the
    call. *)
Theorem get_player_stats_after_add (now : datetime) (lb : Leaderboard)
    (nm : str) (r : raw_score) (sc : Z) :
  validate_name nm = true -> int_of_raw r = Some sc -> 0 <= sc <= 10000 ->
  get_player_stats nm (snd (add_score now lb nm r)) <> Returned None /\
  (forall st,
     get_player_stats nm (snd (add_score now lb nm r)) = Returned (Some st) ->
     st_current_score st = sc /\
     (exists pre, st_score_history st = pre ++ [sc]) /\
     sc <= st_best_score st) /\
  (Forall record_ok (players lb) ->
   exists st,
     get_player_stats nm (snd (add_score now lb nm r)) = Returned (Some st)) /\
  (forall k, k <> nm ->
     get_player_stats k (snd (add_score now lb nm r)) = get_player_stats k lb).
Proof.
  intros Hnm Hr Hsc.
  rewrite (add_score_accepted now lb nm r sc Hnm Hr Hsc).
  unfold get_player_stats. cbn [snd save_leaderboard players].
  rewrite dict_get_set_same.
  split; [destruct (get_average_score (stored lb nm sc)); discriminate|].
  split.
  { destruct (get_average_score (stored lb nm sc)); [|discriminate].
    intros st [= <-]. cbn [st_current_score st_score_history st_best_score].
    apply stored_fields. }
  split.
  { intros Hok.
    destruct (stored_record_ok lb nm sc Hok Hnm Hsc) as (_ & _ & Hrange & Hinv & _).
    cbn [snd] in Hrange, Hinv.
    rewrite (average_in_range _ Hinv Hrange). eexists. reflexivity. }
  intros k Hk. now rewrite dict_get_set_other.
Qed.

Lemma get_player_stats_after_add_witness :
  let t := mkDatetime 2024 5 17 9 30 0 in
  let after := snd (add_score t two_players (S_ "Ann") (RawStr (S_ "3"))) in
  (exists st, get_player_stats (S_ "Ann") after = Returned (Some st)) /\
  get_player_stats (S_ "Ben") after = get_player_stats (S_ "Ben") two_players.
Proof.
  intros t after.
  destruct (get_player_stats_after_add t two_players (S_ "Ann")
              (RawStr (S_ "3")) 3 eq_refl eq_refl ltac:(lia))
    as (_ & _ & Hret & Hframe).
  split; [apply Hret; two_players_ok | apply Hframe; discriminate].
Defined.

(** X8: get_player_stats(name) returns None exactly when name is not a key
    of the collection, and then no add_score that is rejected can change
    that. *)
Theorem get_player_stats_missing (lb : Leaderboard) (nm : str) :
  (get_player_stats nm lb = Returned None <-> ~ In nm (map fst (players lb))) /\
  (forall now k r,
     get_player_stats nm lb = Returned None -> fst (add_score now lb k r) = false ->
     get_player_stats nm (snd (add_score now lb k r)) = Returned None).
Proof.
  split.
  - unfold get_player_stats. rewrite <- dict_get_None.
    destruct (dict_get nm (players lb)) as [p|]; [|now split].
    destruct (get_average_score p); split; discriminate.
  - intros now k r Hnone Hfail.
    unfold add_score in *.
    destruct (validate_name k); cbn [negb] in *; [|exact Hnone].
    destruct (validate_score r); cbn [negb] in *; [|exact Hnone].
    destruct (int_of_raw r); [discriminate | exact Hnone].
Qed.

Lemma get_player_stats_missing_witness :
  get_player_stats (S_ "Bob") (Leaderboard_init None) = Returned None /\
  get_player_stats (S_ "Bob")
    (snd (add_score (mkDatetime 2024 5 17 9 30 0) (Leaderboard_init None)
            (S_ "Bob") (RawStr (S_ "10001")))) = Returned None.
Proof.
  split.
  - apply (proj1 (get_player_stats_missing (Leaderboard_init None) (S_ "Bob"))).
    simpl. tauto.
  - apply (proj2 (get_player_stats_missing (Leaderboard_init None) (S_ "Bob")));
      reflexivity.
Defined.

(** X9: for a record that satisfies the record invariants (every record made
    by create and update does), get_average_score never takes its
    empty-history branch: it is the true division of the sum of the history
    by games_played, which is positive, and that sum is at most
    best_score * games_played, so the average is at most the best score.
    The division raises OverflowError exactly when the quotient is beyond
    the range of floats (file-loaded values can be that large); when every
    score of the history is between 0 and 10000 it returns. *)
Theorem get_average_score_spec (p : Player) :
  invariants p ->
  0 < games_played p /\
  py_sum (score_history p) <= best_score p * games_played p /\
  (get_average_score p = OverflowError <->
   float_overflow_bound * games_played p <= Z.abs (py_sum (score_history p))) /\
  (get_average_score p <> OverflowError ->
   get_average_score p =
   Returned (PyTrueDiv (py_sum (score_history p)) (games_played p))) /\
  (Forall (fun s => 0 <= s <= 10000) (score_history p) ->
   get_average_score p =
   Returned (PyTrueDiv (py_sum (score_history p)) (games_played p))).
Proof.
  intros Hinv. destruct (average_of_history p Hinv) as [Hpos Havg].
  split; [exact Hpos|]. split.
  { destruct Hinv as (Hne & Hlen & Hmax & _). rewrite <- Hlen.
    apply py_sum_le. destruct (score_history p) as [|x l]; [contradiction|].
    cbn [py_max] in Hmax. injection Hmax as <-.
    destruct (fold_max_ge l x) as [Hx Hl]. now constructor. }
  rewrite Havg. unfold true_divide. rewrite (Z.abs_eq (games_played p)) by lia.
  destruct (Z.leb_spec (float_overflow_bound * games_played p)
                       (Z.abs (py_sum (score_history p)))) as [Hov | Hfine].
  - split; [now split|]. split; [now intros H|].
    intros Hrange. pose proof (average_in_range p Hinv Hrange) as Hret.
    rewrite Havg in Hret. unfold true_divide in Hret.
    rewrite (Z.abs_eq (games_played p)) in Hret by lia.
    destruct (Z.leb_spec (float_overflow_bound * games_played p)
                         (Z.abs (py_sum (score_history p)))); [discriminate | lia].
  - split; [split; [discriminate | lia]|]. split; reflexivity.
Qed.

Lemma get_average_score_spec_witness :
  let p := after_updates (S_ "Alice") 100 [50; 200] in
  0 < games_played p /\
  get_average_score p = Returned (PyTrueDiv 350 3).
Proof.
  intros p.
  assert (Hinv : invariants p).
  { unfold invariants. vm_compute.
    repeat split; try discriminate. now exists [100; 50]. }
  destruct (get_average_score_spec p Hinv) as (Hpos & _ & _ & _ & Hret).
  split; [exact Hpos|]. apply Hret. repeat constructor; vm_compute; discriminate.
Defined.

(** ** More on the ranking *)

Lemma top_in_sorted (n : Z) (lb : Leaderboard) :
  exists rest, sorted_desc (dict_values (players lb)) = get_top_players n lb ++ rest.
Proof. apply slice_to_prefix. Qed.

(** X10: whenever get_top_players returns a non-empty list, its first
    record has the highest current score of the whole collection. *)
Theorem top_player_has_max_score (lb : Leaderboard) (n : Z) (q : Player)
    (rest : list Player) (p : Player) :
  get_top_players n lb = q :: rest ->
  In p (dict_values (players lb)) ->
  score p <= score q.
Proof.
  intros Htop Hp.
  destruct (top_in_sorted n lb) as (more & Hsorted). rewrite Htop in Hsorted.
  pose proof (sorted_desc_sorted (dict_values (players lb))) as Hss.
  apply (Permutation_in _ (sorted_desc_perm _)) in Hp.
  rewrite Hsorted in Hss, Hp. cbn [app] in Hss, Hp.
  inversion Hss as [|? ? _ Hall]; subst.
  destruct Hp as [<- | Hp]; [lia|].
  rewrite Forall_forall in Hall. exact (Hall p Hp).
Qed.

Lemma top_player_has_max_score_witness :
  score (Player_init (S_ "Ann") 10) <= score (Player_init (S_ "Ben") 20).
Proof.
  apply (top_player_has_max_score two_players 5 (Player_init (S_ "Ben") 20)
           [Player_init (S_ "Ann") 10] (Player_init (S_ "Ann") 10)).
  - reflexivity.
  - simpl. now left.
Defined.

(** X11: for 0 <= m <= n the result of get_top_players(m) is a prefix of the
    result of get_top_players(n), and once n reaches the number of players
    the result is the whole collection, sorted. *)
Theorem get_top_players_grows (lb : Leaderboard) (m n : Z) :
  0 <= m <= n ->
  (exists more, get_top_players n lb = get_top_players m lb ++ more) /\
  (Z.of_nat (length (players lb)) <= n ->
   get_top_players n lb = sorted_desc (dict_values (players lb))).
Proof.
  intros Hmn. unfold get_top_players, slice_to.
  set (all := sorted_desc (dict_values (players lb))).
  assert (Hlen : length all = length (players lb)).
  { unfold all, dict_values. now rewrite sorted_desc_length, length_map. }
  destruct (Z.ltb_spec m 0); [lia|]. destruct (Z.ltb_spec n 0); [lia|].
  split.
  - exists (skipn (Z.to_nat (Z.min m (Z.of_nat (length all))))
                  (firstn (Z.to_nat (Z.min n (Z.of_nat (length all)))) all)).
    rewrite <- (firstn_skipn (Z.to_nat (Z.min m (Z.of_nat (length all))))
                  (firstn (Z.to_nat (Z.min n (Z.of_nat (length all)))) all)) at 1.
    f_equal. rewrite firstn_firstn. f_equal. lia.
  - intros Hn. apply firstn_all2. lia.
Qed.

Lemma get_top_players_grows_witness :
  (exists more, get_top_players 5 two_players = get_top_players 1 two_players ++ more) /\
  get_top_players 5 two_players = sorted_desc (dict_values (players two_players)).
Proof.
  destruct (get_top_players_grows two_players 1 5) as [Hpre Hall]; [lia|].
  split; [exact Hpre | apply Hall; simpl; lia].
Defined.

Lemma filter_has_score_head (x : Player) (l : list Player) :
  filter (has_score (score x)) (x :: l) = x :: filter (has_score (score x)) l.
Proof. cbn [filter]. unfold has_score at 1. now rewrite Z.eqb_refl. Qed.

Lemma filter_In_score (k : Z) (x : Player) (l : list Player) :
  In x (filter (has_score k) l) -> In x l /\ score x = k.
Proof.
  intros H. apply filter_In in H as [Hin Hk]. split; [exact Hin|].
  now apply Z.eqb_eq.
Qed.

Lemma sorted_head_max (x y : Player) (l : list Player) :
  StronglySorted desc (x :: l) -> In y (x :: l) -> score y <= score x.
Proof.
  intros Hss [<- | Hin]; [lia|].
  inversion Hss as [|? ? _ Hall]; subst.
  rewrite Forall_forall in Hall. exact (Hall y Hin).
Qed.

Lemma sorted_filters_eq (l1 : list Player) :
  forall l2, StronglySorted desc l1 -> StronglySorted desc l2 ->
             (forall k, filter (has_score k) l1 = filter (has_score k) l2) ->
             l1 = l2.
Proof.
  induction l1 as [|x l1 IH]; intros l2 H1 H2 Hf.
  - destruct l2 as [|y l2]; [reflexivity|].
    specialize (Hf (score y)). rewrite filter_has_score_head in Hf. discriminate.
  - destruct l2 as [|y l2].
    { specialize (Hf (score x)). rewrite filter_has_score_head in Hf. discriminate. }
    assert (Hyx : score y <= score x).
    { apply (sorted_head_max x y l1 H1).
      apply (filter_In_score (score y)). rewrite Hf, filter_has_score_head. now left. }
    assert (Hxy : score x <= score y).
    { apply (sorted_head_max y x l2 H2).
      apply (filter_In_score (score x)). rewrite <- Hf, filter_has_score_head. now left. }
    assert (Heq : x = y).
    { pose proof (Hf (score x)) as Hk. rewrite filter_has_score_head in Hk.
      replace (score x) with (score y) in Hk at 2 by lia.
      rewrite filter_has_score_head in Hk. now injection Hk. }
    subst y. f_equal. apply IH.
    + now inversion H1.
    + now inversion H2.
    + intros k. specialize (Hf k). cbn [filter] in Hf.
      destruct (has_score k x); [now injection Hf | exact Hf].
Qed.

(** X12: the ranking is determined by the scores and the iteration order
    alone: any arrangement that is in descending score order and keeps the
    players of each score in their iteration order is the list that
    get_top_players sorts, so every stable sort gives the same ranking. *)
Theorem stable_ranking_unique (lb : Leaderboard) (ranking : list Player) :
  StronglySorted desc ranking ->
  (forall k, filter (has_score k) ranking =
             filter (has_score k) (dict_values (players lb))) ->
  forall n, get_top_players n lb = slice_to n ranking.
Proof.
  intros Hss Hstable n. unfold get_top_players. f_equal. symmetry.
  apply sorted_filters_eq; [exact Hss | apply sorted_desc_sorted|].
  intros k. now rewrite Hstable, sorted_desc_stable.
Qed.

Lemma stable_ranking_unique_witness :
  get_top_players 1 two_players =
  slice_to 1 [Player_init (S_ "Ben") 20; Player_init (S_ "Ann") 10].
Proof.
  apply (stable_ranking_unique two_players).
  - repeat constructor; unfold desc; simpl; lia.
  - intros k. unfold two_players, dict_values, has_score.
    cbn [players map snd filter score Player_init].
    destruct (Z.eqb_spec 10 k), (Z.eqb_spec 20 k); try reflexivity. lia.
Defined.

(** ** More on saving and loading *)

Lemma sorted_desc_sorted_id (l : list Player) :
  StronglySorted desc l -> sorted_desc l = l.
Proof.
  induction 1 as [|x l Hl IH Hx]; [reflexivity|].
  cbn [sorted_desc fold_right]. fold (sorted_desc l). rewrite IH.
  destruct l as [|y l]; [reflexivity|].
  cbn [insert_desc]. inversion Hx as [|? ? Hy _]; subst. unfold desc in Hy.
  destruct (Z.ltb_spec (score x) (score y)); [lia | reflexivity].
Qed.

Lemma sorted_map_reset (l : list Player) :
  StronglySorted desc l -> StronglySorted desc (map reset_streak l).
Proof.
  induction 1 as [|x l Hl IH Hx]; cbn [map]; constructor; [exact IH|].
  apply Forall_map. eapply Forall_impl; [|exact Hx]. now intros y Hy.
Qed.

Lemma slice_to_all {A : Type} (n : Z) (l : list A) :
  Z.of_nat (length l) <= n -> slice_to n l = l.
Proof.
  intros Hn. unfold slice_to. destruct (Z.ltb_spec n 0); [lia|].
  apply firstn_all2. lia.
Qed.

Lemma top_ten_length (lb : Leaderboard) :
  length (get_top_players 10 lb) = Nat.min 10 (length (players lb)).
Proof.
  unfold get_top_players, slice_to.
  rewrite length_firstn, sorted_desc_length. unfold dict_values.
  rewrite length_map. change (10 <? 0) with false. cbv iota. lia.
Qed.

Lemma top_sorted (n : Z) (lb : Leaderboard) :
  StronglySorted desc (get_top_players n lb).
Proof. apply StronglySorted_firstn, sorted_desc_sorted. Qed.

Lemma restarted_top_ten (now : datetime) (lb : Leaderboard) :
  wf_players (players lb) ->
  Forall (fun p => clean_name (name p) = true) (get_top_players 10 lb) ->
  get_top_players 10 (Leaderboard_init (disk (save_leaderboard now lb))) =
  map reset_streak (get_top_players 10 lb).
Proof.
  intros Hwf Hclean.
  pose proof (save_load_players now lb Hwf Hclean) as Hre.
  unfold reloaded in Hre. unfold get_top_players at 1. rewrite Hre.
  unfold dict_values. rewrite map_map. cbn [saved_entry snd].
  rewrite sorted_desc_sorted_id by apply sorted_map_reset, top_sorted.
  apply slice_to_all. rewrite length_map, top_ten_length. lia.
Qed.

(** X13: restarting and saving again writes the same player lines: for a
    well-formed leaderboard whose top-10 names the line format carries, the
    leaderboard built from the saved file ranks the same ten players in the
    same order, and its own save differs from the first one in the time
    stamp of the header only. *)
Theorem resave_after_restart (now now' : datetime) (lb : Leaderboard) :
  wf_players (players lb) ->
  Forall (fun p => clean_name (name p) = true) (get_top_players 10 lb) ->
  let restarted := Leaderboard_init (disk (save_leaderboard now lb)) in
  get_top_players 10 restarted = map reset_streak (get_top_players 10 lb) /\
  disk (save_leaderboard now' restarted) =
    Some (header now' ++ concat (map player_line (get_top_players 10 lb))).
Proof.
  intros Hwf Hclean restarted.
  pose proof (restarted_top_ten now lb Hwf Hclean) as Htop.
  split; [exact Htop|].
  unfold save_leaderboard at 1. cbn [disk]. unfold restarted. rewrite Htop.
  unfold file_text. now rewrite map_map.
Qed.

Lemma resave_after_restart_witness :
  let t := mkDatetime 2024 5 17 9 31 0 in
  let t' := mkDatetime 2024 5 18 8 0 0 in
  let restarted := Leaderboard_init (disk (save_leaderboard t sample_board)) in
  get_top_players 10 restarted = map reset_streak (get_top_players 10 sample_board) /\
  disk (save_leaderboard t' restarted) =
    Some (header t' ++ concat (map player_line (get_top_players 10 sample_board))).
Proof.
  apply (resave_after_restart (mkDatetime 2024 5 17 9 31 0)
           (mkDatetime 2024 5 18 8 0 0) sample_board).
  - split; vm_compute.
    + repeat constructor; simpl; intuition discriminate.
    + repeat constructor; discriminate.
  - vm_compute. repeat constructor.
Defined.

(** X14: a restart keeps the top ten and nothing else: for a well-formed
    leaderboard whose top-10 names the line format carries, the leaderboard
    built from the saved file has min(10, number of players) entries, and a
    name is a key of it exactly when it is the name of a top-10 player. *)
Theorem restart_keeps_top_ten (now : datetime) (lb : Leaderboard) :
  wf_players (players lb) ->
  Forall (fun p => clean_name (name p) = true) (get_top_players 10 lb) ->
  length (reloaded now lb) = Nat.min 10 (length (players lb)) /\
  (forall k, dict_get k (reloaded now lb) = None <->
             ~ In k (map name (get_top_players 10 lb))).
Proof.
  intros Hwf Hclean. rewrite (save_load_players now lb Hwf Hclean).
  split; [now rewrite length_map, top_ten_length|].
  intros k. rewrite dict_get_None, map_map. reflexivity.
Qed.

Lemma restart_keeps_top_ten_witness :
  let t := mkDatetime 2024 5 17 9 31 0 in
  length (reloaded t sample_board) = Nat.min 10 (length (players sample_board)) /\
  (forall k, dict_get k (reloaded t sample_board) = None <->
             ~ In k (map name (get_top_players 10 sample_board))).
Proof.
  apply (restart_keeps_top_ten (mkDatetime 2024 5 17 9 31 0) sample_board).
  - split; vm_compute.
    + repeat constructor; simpl; intuition discriminate.
    + repeat constructor; discriminate.
  - vm_compute. repeat constructor.
Defined.

(** X15: blank lines in the data part of the file are skipped wherever they
    stand: loading gives the same players, and fails or not alike, as
    loading the lines that are not blank. *)
Theorem load_skips_blank_lines (lines : list str) (ps : dict) :
  load_lines lines ps =
  load_lines (filter (fun line => negb (is_blank line)) lines) ps.
Proof.
  revert ps. induction lines as [|line rest IH]; intros ps; [reflexivity|].
  cbn [filter]. unfold is_blank at 1.
  rewrite load_lines_cons.
  destruct (strip line) as [|c s] eqn:Hstrip; cbn [negb].
  - apply IH.
  - rewrite load_lines_cons, Hstrip.
    destruct (parse_line (c :: s)); [apply IH | reflexivity].
Qed.

Lemma split_app_sep (sep : ascii) (a b : str) :
  split sep (a ++ sep :: b) = split sep a ++ split sep b.
Proof.
  induction a as [|c a IH]; cbn [app split].
  - now rewrite Ascii.eqb_refl.
  - rewrite IH. destruct (Ascii.eqb c sep); [reflexivity|].
    pose proof (split_not_nil sep a) as Hne.
    destruct (split sep a); [contradiction | reflexivity].
Qed.

(** X16: a data line needs five columns: with fewer than five '|'-separated
    parts it fails to parse (and ends the load), and whatever follows a fifth
    column after a further '|' is ignored. *)
Theorem parse_line_columns (s : str) :
  ((length (split "|" s) < 5)%nat -> parse_line s = None) /\
  ((5 <= length (split "|" s))%nat ->
   forall extra, parse_line (s ++ "|"%char :: extra) = parse_line s).
Proof.
  split.
  - intros Hlen. unfold parse_line.
    assert (H4 : nth_error (split "|" s) 4 = None) by (apply nth_error_None; lia).
    rewrite H4.
    repeat match goal with
           | |- context [match ?x with _ => _ end] => destruct x
           end; reflexivity.
  - intros Hlen extra. unfold parse_line. rewrite split_app_sep.
    rewrite !nth_error_app1 by lia. reflexivity.
Qed.

Lemma parse_line_columns_witness :
  parse_line (S_ "Ann|10|1|10") = None /\
  parse_line (S_ "Ann|10|1|10|10" ++ "|"%char :: S_ "note") =
  parse_line (S_ "Ann|10|1|10|10").
Proof.
  split.
  - apply (proj1 (parse_line_columns (S_ "Ann|10|1|10"))). vm_compute. lia.
  - apply (proj2 (parse_line_columns (S_ "Ann|10|1|10|10"))). vm_compute. lia.
Defined.

Lemma find_snoc {A : Type} (f : A -> bool) (l : list A) (x : A) :
  find f (l ++ [x]) =
  match find f l with
  | Some y => Some y
  | None => if f x then Some x else None
  end.
Proof.
  induction l as [|y l IH]; cbn [app find]; [reflexivity|].
  destruct (f y); [reflexivity | exact IH].
Qed.

Lemma dict_get_put (nm : str) (d : dict) (p : Player) :
  dict_get nm (put d p) =
  if str_eqb nm (name p) then Some (reset_streak p) else dict_get nm d.
Proof.
  unfold put. destruct (str_eqb nm (name p)) eqn:Hk.
  - apply str_eqb_eq in Hk. subst nm. apply dict_get_set_same.
  - apply dict_get_set_other. intros ->. now rewrite str_eqb_refl in Hk.
Qed.

Lemma dict_get_fold_put (nm : str) (ps : list Player) :
  forall d,
    dict_get nm (fold_left put ps d) =
    match find (fun p => str_eqb nm (name p)) (rev ps) with
    | Some p => Some (reset_streak p)
    | None => dict_get nm d
    end.
Proof.
  induction ps as [|p ps IH]; intros d; [reflexivity|].
  cbn [fold_left rev]. rewrite IH, find_snoc, dict_get_put.
  destruct (find _ (rev ps)); [reflexivity|].
  now destruct (str_eqb nm (name p)).
Qed.

(** X17: loading trusts the file: a file in the line format, written for any
    records whose numbers int() reads back (at most 4300 digits, the default
    cap; no check of the range of a score, nor that games_played, best_score
    and the history agree), loads, and the record found under a name is the
    one of the last line with that name, with the fields of the file and
    streak 0; when the names are distinct the loaded collection is exactly
    the records of the file, in file order. *)
Theorem load_trusts_the_file (now : datetime) (ps : list Player) :
  Forall loadable ps ->
  (forall nm,
     dict_get nm (players (Leaderboard_init (Some (file_text now ps)))) =
     option_map reset_streak (find (fun p => str_eqb nm (name p)) (rev ps))) /\
  (NoDup (map name ps) ->
   players (Leaderboard_init (Some (file_text now ps))) = map saved_entry ps).
Proof.
  intros Hload.
  assert (Hsav : Forall savable ps).
  { eapply Forall_impl; [|exact Hload]. now intros p [Hp _]. }
  assert (Heq : players (Leaderboard_init (Some (file_text now ps))) =
                fold_left put ps []).
  { unfold Leaderboard_init, load_leaderboard. cbn [disk players].
    now rewrite data_lines_file_text, load_player_lines. }
  rewrite Heq. split.
  - intros nm. rewrite dict_get_fold_put.
    now destruct (find _ (rev ps)).
  - intros Hnd. now rewrite fold_put_fresh.
Qed.

Lemma load_trusts_the_file_witness :
  let t := mkDatetime 2024 5 17 9 30 0 in
  let odd := mkPlayer (S_ "Zed") 99999 (-3) 5 [1; 2] 7 in
  players (Leaderboard_init (Some (file_text t [odd]))) = [(S_ "Zed", reset_streak odd)].
Proof.
  intros t odd.
  assert (Hodd : Forall loadable [odd]).
  { constructor; [|constructor].
    unfold loadable, savable, under_digit_cap.
    cbn [odd name score games_played best_score score_history].
    repeat split; try reflexivity; try discriminate.
    repeat constructor. }
  apply (proj2 (load_trusts_the_file t [odd] Hodd)).
  repeat constructor. simpl. tauto.
Defined.

(** ** The menu and the sample data *)

Lemma drop_while_head_false (f : ascii -> bool) (s : str) (c : ascii) (t : str) :
  drop_while f s = c :: t -> f c = false.
Proof.
  induction s as [|x s IH]; cbn [drop_while]; [discriminate|].
  destruct (f x) eqn:Hx; [exact IH|]. now intros [= <- _].
Qed.

Lemma drop_while_suffix (f : ascii -> bool) (s : str) :
  exists pre, s = pre ++ drop_while f s.
Proof.
  induction s as [|x s [pre IH]]; [now exists []|].
  cbn [drop_while]. destruct (f x); [|now exists []].
  exists (x :: pre). cbn [app]. now f_equal.
Qed.

Lemma drop_while_lacks (f : ascii -> bool) (d : ascii) (s : str) :
  lacks d s -> lacks d (drop_while f s).
Proof.
  intros Hs. destruct (drop_while_suffix f s) as [pre Heq].
  unfold lacks in *. rewrite Heq in Hs. now apply Forall_app in Hs.
Qed.

Lemma strip_lacks (d : ascii) (s : str) : lacks d s -> lacks d (strip s).
Proof.
  intros Hs. unfold strip, strip_with, lacks.
  apply Forall_rev, drop_while_lacks, Forall_rev, drop_while_lacks, Hs.
Qed.

Lemma strip_head_not_space (s : str) (c : ascii) (t : str) :
  strip s = c :: t -> is_space c = false.
Proof.
  unfold strip, strip_with. intros Hstrip.
  destruct (drop_while_suffix is_space (rev (drop_while is_space s))) as [pre Hpre].
  apply (f_equal (@rev ascii)) in Hpre.
  rewrite rev_involutive, rev_app_distr, Hstrip in Hpre.
  cbn [app] in Hpre. now apply drop_while_head_false in Hpre.
Qed.

Lemma add_score_true (now : datetime) (lb : Leaderboard) (nm : str)
    (r : raw_score) :
  fst (add_score now lb nm r) = true ->
  exists sc, accepted (now, nm, r) = Some (nm, sc).
Proof.
  unfold add_score, accepted.
  destruct (validate_name nm); [|discriminate].
  destruct (validate_score r); [|discriminate]. cbn [negb andb].
  destruct (int_of_raw r) as [sc|]; [|discriminate].
  intros _. now exists sc.
Qed.

(** X18: choice 1 of the menu stores a player under the stripped name: when
    the call succeeds the stripped name is a key of the collection.  If the
    typed name has no '|' (and, as an input line, no line feed and no
    carriage return), the stored name is one that the line format carries:
    it has none of these characters and no white space in front. *)
Theorem menu_add_score_name (now : datetime) (lb : Leaderboard)
    (typed_name typed_score : str) :
  (fst (menu_add_score now lb typed_name typed_score) = true ->
   exists p, dict_get (strip typed_name)
               (players (snd (menu_add_score now lb typed_name typed_score)))
             = Some p) /\
  (lacks "|" typed_name -> lacks LF typed_name -> lacks CR typed_name ->
   clean_name (strip typed_name) = true).
Proof.
  split.
  - unfold menu_add_score. intros Hok.
    destruct (add_score_true _ _ _ _ Hok) as (sc & Hacc).
    rewrite add_score_players, Hacc. eexists. apply dict_get_set_same.
  - intros Hbar HLF HCR. unfold clean_name. apply andb_true_intro. split.
    + apply forallb_forall. intros c Hc.
      apply strip_lacks in Hbar, HLF, HCR. unfold lacks in *.
      rewrite Forall_forall in Hbar, HLF, HCR.
      now rewrite (Hbar c Hc), (HLF c Hc), (HCR c Hc).
    + destruct (strip typed_name) as [|c t] eqn:Hstrip; [reflexivity|].
      apply negb_true_iff. eapply strip_head_not_space; eauto.
Qed.

Lemma menu_add_score_name_witness :
  let t := mkDatetime 2024 5 17 9 30 0 in
  (exists p, dict_get (strip (S_ "  Al "))
               (players (snd (menu_add_score t two_players (S_ "  Al ") (S_ " 7 "))))
             = Some p) /\
  clean_name (strip (S_ "  Al ")) = true.
Proof.
  intros t.
  destruct (menu_add_score_name t two_players (S_ "  Al ") (S_ " 7 ")) as [H1 H2].
  split; [apply H1; reflexivity | apply H2; repeat constructor].
Defined.

(** X19: add_sample_data succeeds on every leaderboard: afterwards each of
    the eight sample names is present with its sample score as current score
    (a new record, or the update of the one that was there), and on a
    leaderboard that starts without a file the top five are Charlie, Eve,
    Alice, Grace and Frank. *)
Theorem add_sample_data_spec (clock : nat -> datetime) (lb : Leaderboard) :
  (forall nm s, In (nm, s) sample_players ->
     dict_get nm (players (add_sample_data clock lb)) =
     Some (stored lb nm s)) /\
  map name (get_top_players 5 (add_sample_data clock (Leaderboard_init None))) =
  [S_ "Charlie"; S_ "Eve"; S_ "Alice"; S_ "Grace"; S_ "Frank"].
Proof.
  split.
  - intros nm s Hin. unfold add_sample_data. fold (sample_calls clock).
    rewrite run_get. unfold stored.
    assert (Hs : scores_of nm (sample_calls clock) = [s]).
    { unfold sample_players in Hin. cbn [In] in Hin.
      repeat (destruct Hin as [[= <- <-] | Hin]; [reflexivity|]).
      contradiction. }
    rewrite Hs. now destruct (dict_get nm (players lb)).
  - reflexivity.
Qed.

Lemma add_sample_data_spec_witness :
  dict_get (S_ "Eve")
    (players (add_sample_data (fun i => mkDatetime 2024 5 17 9 30 (N.of_nat i))
                two_players)) =
  Some (stored two_players (S_ "Eve") 8900).
Proof.
  apply (proj1 (add_sample_data_spec
                  (fun i => mkDatetime 2024 5 17 9 30 (N.of_nat i)) two_players)).
  simpl. tauto.
Defined.

(** ** The table of display_leaderboard *)

Lemma display_rows_players (top : list Player) :
  forall rank prev, map row_player (display_rows rank prev top) = top.
Proof.
  induction top as [|p top IH]; intros rank prev; [reflexivity|].
  cbn [display_rows map]. now rewrite IH.
Qed.

Lemma display_rows_ranks (top : list Player) :
  forall rank prev,
    map row_rank (display_rows rank prev top) =
    map (fun i => rank + Z.of_nat i) (seq 0 (length top)).
Proof.
  induction top as [|p top IH]; intros rank prev; [reflexivity|].
  cbn [display_rows map length seq]. rewrite IH. f_equal.
  - unfold row_rank. cbn. lia.
  - rewrite <- seq_shift, map_map. apply map_ext. intros i. lia.
Qed.

Lemma display_rows_gaps (top : list Player) :
  forall rank prev,
    StronglySorted desc top ->
    (forall s, prev = Some s -> Forall (fun p => score p <= s) top) ->
    Forall (fun row => match row_gap row with
                       | Some g => 0 <= g
                       | None => prev = None /\ row_rank row = rank
                       end) (display_rows rank prev top).
Proof.
  induction top as [|p top IH]; intros rank prev Hss Hprev; [constructor|].
  cbn [display_rows]. inversion Hss as [|? ? Hss' Hall]; subst. constructor.
  - unfold row_gap, row_rank. cbn [fst snd].
    destruct prev as [s|]; [|now split].
    specialize (Hprev s eq_refl). inversion Hprev; subst. lia.
  - eapply Forall_impl; [|apply (IH (rank + 1) (Some (score p)) Hss')].
    + intros row. cbv beta. destruct (row_gap row) as [g|]; [intros Hg; exact Hg|].
      intros [Hnone _]. discriminate.
    + intros s [= <-]. exact Hall.
Qed.

Lemma last_cons_default {A : Type} (x d : A) (l : list A) :
  last (x :: l) d = last l x.
Proof.
  revert x d. induction l as [|y l IH]; intros x d; [reflexivity|].
  change (last (x :: y :: l) d) with (last (y :: l) d).
  now rewrite (IH y d), (IH y x).
Qed.

Lemma display_rows_gap_total (top : list Player) :
  forall rank s,
    gap_total (display_rows rank (Some s) top) = s - last (map score top) s.
Proof.
  induction top as [|p top IH]; intros rank s; [cbn; lia|].
  cbn [display_rows gap_total fold_right map]. unfold row_gap at 1. cbn [snd].
  fold (gap_total (display_rows (rank + 1) (Some (score p)) top)).
  rewrite IH, last_cons_default. lia.
Qed.

Lemma top_length (n : Z) (lb : Leaderboard) :
  0 <= n ->
  length (get_top_players n lb) = Nat.min (Z.to_nat n) (length (players lb)).
Proof.
  intros Hn. unfold get_top_players, slice_to.
  rewrite length_firstn, sorted_desc_length. unfold dict_values.
  rewrite length_map. destruct (Z.ltb_spec n 0); lia.
Qed.

Lemma display_rows_nth (top : list Player) :
  forall rank prev i p,
    nth_error top i = Some p ->
    nth_error (display_rows rank prev top) i =
    Some (rank + Z.of_nat i, p,
          match i with
          | O => option_map (fun s => s - score p) prev
          | S j => option_map (fun q => score q - score p) (nth_error top j)
          end).
Proof.
  induction top as [|p0 top IH]; intros rank prev i p Hi; [now destruct i|].
  destruct i as [|j]; cbn [display_rows nth_error] in *.
  - injection Hi as <-. rewrite Z.add_0_r. now destruct prev.
  - rewrite (IH (rank + 1) (Some (score p0)) j p Hi).
    replace (rank + 1 + Z.of_nat j) with (rank + Z.of_nat (S j)) by lia.
    destruct j as [|j']; reflexivity.
Qed.

(** X20: display_leaderboard prints the "No players yet" message exactly
    when the collection is empty; otherwise it prints a table of
    min(5, number of players) rows, the top players in rank order, numbered
    from 1.  The first row shows a dash as gap and every other row the
    score of the row above minus its own score, which is never negative; the
    gaps add up to the difference between the first and the last score
    shown.  Each row is printed as rank, name, score and gap, left-aligned
    in fields of 6, 20, 10 and 10 separated by one blank.  The decorator
    prints its three banner lines before and its closing rule after,
    whatever the body prints. *)
Theorem display_leaderboard_table (lb : Leaderboard) :
  let top := get_top_players 5 lb in
  let rows := display_rows 1 None top in
  (players lb = [] -> display_body lb = [no_players_message]) /\
  (players lb <> [] ->
   display_body lb = [table_head; repeat "-"%char 60] ++ map row_text rows) /\
  length rows = Nat.min 5 (length (players lb)) /\
  map row_player rows = top /\
  map row_rank rows = map Z.of_nat (seq 1 (length rows)) /\
  (forall i p, nth_error top i = Some p ->
     nth_error rows i =
     Some (Z.of_nat i + 1, p,
           match i with
           | O => None
           | S j => option_map (fun above => score above - score p)
                               (nth_error top j)
           end)) /\
  (forall i p, nth_error top i = Some p ->
     nth_error (display_body lb) (2 + i) = Some (printed_row top i p)) /\
  (forall row, In row rows ->
     match row_gap row with
     | Some g => 0 <= g
     | None => row_rank row = 1
     end) /\
  gap_total rows =
    match top with
    | [] => 0
    | p :: _ => score p - last (map score top) (score p)
    end /\
  display_leaderboard lb =
    [LF :: repeat "="%char 60;
     repeat " "%char 16 ++ S_ " VIDEO GAME LEADERBOARD " ++ repeat " "%char 16;
     repeat "="%char 60] ++
    display_body lb ++ [repeat "="%char 60 ++ [LF]].
Proof.
  intros top rows.
  assert (Hlen : length top = Nat.min 5 (length (players lb)))
    by (apply (top_length 5 lb); lia).
  assert (Hrows : length rows = length top).
  { unfold rows. rewrite <- (display_rows_players top 1 None) at 2.
    now rewrite length_map. }
  split.
  { intros Hnil. unfold display_body. fold top.
    destruct top; [reflexivity|]. rewrite Hnil in Hlen. discriminate. }
  split.
  { intros Hne. unfold display_body. fold top. fold rows.
    destruct top; [|reflexivity].
    destruct (players lb); [contradiction | discriminate]. }
  split; [now rewrite Hrows|].
  split; [apply display_rows_players|].
  split.
  { unfold rows. rewrite display_rows_ranks. fold rows. rewrite Hrows.
    rewrite <- seq_shift, map_map. apply map_ext. intros i. lia. }
  assert (Hnth : forall i p, nth_error top i = Some p ->
            nth_error rows i =
            Some (Z.of_nat i + 1, p,
                  match i with
                  | O => None
                  | S j => option_map (fun above => score above - score p)
                                      (nth_error top j)
                  end)).
  { intros i p Hi. unfold rows. rewrite (display_rows_nth top 1 None i p Hi).
    replace (1 + Z.of_nat i) with (Z.of_nat i + 1) by lia. now destruct i. }
  split; [exact Hnth|].
  split.
  { intros i p Hi. pose proof (Hnth i p Hi) as Hrow. unfold rows in Hrow.
    unfold display_body. fold top.
    destruct top as [|p0 rest]; [now destruct i|].
    cbn [app Nat.add nth_error].
    rewrite nth_error_map, Hrow. cbn [option_map]. f_equal.
    unfold row_text, printed_row. do 6 f_equal.
    destruct i as [|j]; [reflexivity|].
    now destruct (nth_error (p0 :: rest) j). }
  split.
  { intros row Hin.
    pose proof (display_rows_gaps top 1 None (top_sorted 5 lb)) as Hgaps.
    rewrite Forall_forall in Hgaps. specialize (Hgaps ltac:(discriminate) row Hin).
    destruct (row_gap row); [exact Hgaps | tauto]. }
  split; [|reflexivity].
  unfold rows. destruct top as [|p rest]; [reflexivity|].
  cbn [display_rows gap_total fold_right]. unfold row_gap at 1. cbn [snd].
  fold (gap_total (display_rows (1 + 1) (Some (score p)) rest)).
  rewrite display_rows_gap_total. cbn [map]. now rewrite last_cons_default.
Qed.

Lemma display_leaderboard_table_witness :
  display_body (Leaderboard_init None) = [no_players_message] /\
  display_body sample_board =
    [table_head; repeat "-"%char 60] ++
    map row_text (display_rows 1 None (get_top_players 5 sample_board)).
Proof.
  split.
  - apply (proj1 (display_leaderboard_table (Leaderboard_init None))). reflexivity.
  - apply (proj1 (proj2 (display_leaderboard_table sample_board))).
    vm_compute. discriminate.
Defined.

Lemma N_digits_length (f : nat) :
  forall (n : N) (acc : str) (k : nat),
    (n < 10 ^ N.of_nat k)%N -> (1 <= k)%nat ->
    (length (N_digits f n acc) <= k + length acc)%nat.
Proof.
  induction f as [|f IH]; intros n acc k Hn Hk; cbn [N_digits]; [lia|].
  destruct (N.eqb_spec (n / 10) 0) as [Hdiv | Hdiv]; [cbn [length]; lia|].
  destruct k as [|[|k]]; [lia | |].
  - exfalso. apply Hdiv. apply N.div_small. exact Hn.
  - specialize (IH (n / 10)%N (digit_char (n mod 10) :: acc) (S k)).
    cbn [length] in IH. etransitivity; [apply IH; [|lia]|lia].
    apply N.Div0.div_lt_upper_bound.
    replace (N.of_nat (S (S k))) with (N.succ (N.of_nat (S k))) in Hn by lia.
    now rewrite N.pow_succ_r' in Hn.
Qed.

Lemma str_of_Z_short (z : Z) :
  0 <= z <= 10000 -> (length (str_of_Z z) <= 5)%nat.
Proof.
  intros Hz. unfold str_of_Z. destruct (Z.ltb_spec z 0); [lia|].
  unfold str_of_N.
  pose proof (N_digits_length (S (N.to_nat (N.log2 (Z.to_N z)))) (Z.to_N z) [] 5)
    as Hlen.
  cbn [length] in Hlen. rewrite Nat.add_0_r in Hlen. apply Hlen; [|lia].
  change (10 ^ N.of_nat 5)%N with 100000%N. lia.
Qed.

Lemma ljust_length (w : nat) (s : str) :
  (length s <= w)%nat -> length (ljust w s) = w.
Proof.
  intros Hs. unfold ljust. rewrite length_app, repeat_length. lia.
Qed.

Lemma validate_name_length (nm : str) :
  validate_name nm = true -> (length nm <= 20)%nat.
Proof.
  unfold validate_name. destruct (_ || _); [discriminate|].
  destruct (Nat.ltb_spec 20 (length nm)); [discriminate | lia].
Qed.

Lemma record_ok_score (k : str) (p : Player) :
  record_ok (k, p) -> 0 <= score p <= 10000 /\ (length (name p) <= 20)%nat.
Proof.
  unfold record_ok. cbn [fst snd].
  intros (Hname & Hvalid & Hrange & (_ & _ & _ & pre & Hpre) & _). split.
  - rewrite Hpre in Hrange. apply Forall_app in Hrange as [_ Hlast].
    now inversion Hlast.
  - rewrite Hname. now apply validate_name_length.
Qed.

Lemma display_rows_gap_bound (m : Z) (top : list Player) :
  forall rank prev,
    Forall (fun p => 0 <= score p <= m) top ->
    (forall s, prev = Some s -> s <= m) ->
    Forall (fun row => forall g, row_gap row = Some g -> g <= m)
           (display_rows rank prev top).
Proof.
  induction top as [|p top IH]; intros rank prev Htop Hprev; [constructor|].
  cbn [display_rows]. inversion Htop as [|? ? Hp Htop']; subst. constructor.
  - unfold row_gap. cbn [snd]. intros g.
    destruct prev as [s|]; [|discriminate].
    intros [= <-]. specialize (Hprev s eq_refl). lia.
  - apply IH; [exact Htop'|]. intros s [= <-]. lia.
Qed.

(** X21: on a leaderboard that meets the data model (valid names as keys,
    scores between 0 and 10000), the table of display_leaderboard is
    aligned: each of its rows is exactly 49 characters wide, like the
    heading, no column being pushed out by a long name or number. *)
Theorem display_rows_align (lb : Leaderboard) :
  Forall record_ok (players lb) ->
  length table_head = 49%nat /\
  forall row, In row (display_rows 1 None (get_top_players 5 lb)) ->
              length (row_text row) = 49%nat.
Proof.
  intros Hok. split; [reflexivity|].
  set (top := get_top_players 5 lb). set (rows := display_rows 1 None top).
  assert (Htop : Forall (fun p => 0 <= score p <= 10000 /\
                                  (length (name p) <= 20)%nat) top).
  { apply Forall_forall. intros p Hp.
    destruct (top_in_sorted 5 lb) as (rest & Hsorted).
    assert (Hin : In p (dict_values (players lb))).
    { apply (Permutation_in _ (Permutation_sym (sorted_desc_perm _))).
      rewrite Hsorted. apply in_or_app. now left. }
    unfold dict_values in Hin. apply in_map_iff in Hin as ([k p'] & Heq & Hin).
    cbn [snd] in Heq. subst p'.
    rewrite Forall_forall in Hok. apply (record_ok_score k), Hok, Hin. }
  intros [[rank player] gap] Hrow.
  assert (Hplayer : In player top).
  { rewrite <- (display_rows_players top 1 None).
    now apply (in_map row_player) in Hrow. }
  assert (Hrank : 1 <= rank <= 5).
  { apply (in_map row_rank) in Hrow. fold rows in Hrow.
    unfold rows in Hrow. rewrite display_rows_ranks in Hrow.
    apply in_map_iff in Hrow as (i & Hi & Hseq). apply in_seq in Hseq.
    pose proof (top_length 5 lb ltac:(lia)) as Hlen. fold top in Hlen.
    unfold row_rank in Hi. cbn [fst] in Hi. lia. }
  assert (Hgap : forall g, gap = Some g -> 0 <= g <= 10000).
  { intros g ->. split.
    - pose proof (display_rows_gaps top 1 None (top_sorted 5 lb)
                    ltac:(discriminate)) as Hg.
      rewrite Forall_forall in Hg. exact (Hg _ Hrow).
    - assert (Hb : Forall (fun row => forall g, row_gap row = Some g -> g <= 10000)
                          (display_rows 1 None top)).
      { apply display_rows_gap_bound; [|discriminate].
        eapply Forall_impl; [|exact Htop]. now intros p [Hp _]. }
      rewrite Forall_forall in Hb. exact (Hb _ Hrow g eq_refl). }
  rewrite Forall_forall in Htop. destruct (Htop player Hplayer) as [Hscore Hname].
  unfold row_text, S_. cbn [list_ascii_of_string].
  rewrite !length_app. cbn [length].
  rewrite (ljust_length 20) by exact Hname.
  rewrite (ljust_length 10 (str_of_Z (score player)))
    by (pose proof (str_of_Z_short _ Hscore); lia).
  rewrite (ljust_length 6) by (pose proof (str_of_Z_short rank ltac:(lia)); lia).
  rewrite (ljust_length 10).
  - reflexivity.
  - destruct gap as [g|]; cbn [gap_text]; [|cbn; lia].
    pose proof (str_of_Z_short g (Hgap g eq_refl)). lia.
Qed.

Lemma display_rows_align_witness :
  length table_head = 49%nat /\
  forall row, In row (display_rows 1 None (get_top_players 5 two_players)) ->
              length (row_text row) = 49%nat.
Proof.
  apply (display_rows_align two_players).
  unfold two_players, record_ok, invariants. cbn [players].
  repeat (constructor;
          [cbn [fst snd Player_init name score_history games_played best_score
                score current_streak length py_max fold_left];
           repeat split; try reflexivity; try discriminate; try lia;
           try (repeat constructor; lia); try (now exists [])|]).
  constructor.
Defined.

(** ** What a session never undoes *)

Lemma fold_update_fields (l : list Z) :
  forall p,
    name (fold_left update_score l p) = name p /\
    best_score p <= best_score (fold_left update_score l p) /\
    games_played (fold_left update_score l p) =
      games_played p + Z.of_nat (length l).
Proof.
  induction l as [|s l IH]; intros p; cbn [fold_left length];
    [split; [reflexivity | cbn; lia]|].
  destruct (IH (update_score p s)) as (Hn & Hb & Hg).
  destruct (update_score_fields p s) as (Hn' & _ & Hg' & _ & Hb').
  split; [congruence|]. split; [lia|].
  rewrite Hg, Hg'. lia.
Qed.

(** X22: no sequence of add_score calls removes a player or takes anything
    back: a name that has a record keeps one, with the same name, a
    score_history that extends the old one by the scores accepted for that
    name, a games_played that grew by their number and a best_score that is
    not lower. *)
Theorem session_only_adds (calls : list call) (lb : Leaderboard) (nm : str)
    (p : Player) :
  dict_get nm (players lb) = Some p ->
  exists p',
    dict_get nm (players (run calls lb)) = Some p' /\
    name p' = name p /\
    score_history p' = score_history p ++ scores_of nm calls /\
    games_played p' = games_played p + Z.of_nat (length (scores_of nm calls)) /\
    best_score p <= best_score p'.
Proof.
  intros Hget. rewrite run_get, Hget. eexists. split; [reflexivity|].
  destruct (fold_update_fields (scores_of nm calls) p) as (Hn & Hb & Hg).
  rewrite history_fold_update. auto.
Qed.

Lemma session_only_adds_witness :
  exists p',
    dict_get (S_ "Ann")
      (players (run [(mkDatetime 2024 5 17 9 30 0, S_ "Ann", RawInt 4);
                     (mkDatetime 2024 5 17 9 31 0, S_ "Ann", RawStr (S_ "x"))]
                    two_players)) = Some p' /\
    name p' = S_ "Ann" /\
    score_history p' = [10] ++ [4] /\
    games_played p' = 1 + 1 /\
    10 <= best_score p'.
Proof.
  apply (session_only_adds
           [(mkDatetime 2024 5 17 9 30 0, S_ "Ann", RawInt 4);
            (mkDatetime 2024 5 17 9 31 0, S_ "Ann", RawStr (S_ "x"))]
           two_players (S_ "Ann") (Player_init (S_ "Ann") 10)).
  reflexivity.
Defined.

(** ** The saved file, line by line *)

Lemma readlines_file_text (now : datetime) (ps : list Player) :
  Forall (fun p => one_line (name p)) ps ->
  readlines (file_text now ps) =
  add_LF (header_line1 now) :: add_LF header_line2 :: map player_line ps.
Proof.
  intros Hps. rewrite file_text_lines, readlines_concat.
  - cbn [map]. now rewrite map_map.
  - destruct (header_lines_lack_breaks now) as [HLF _].
    inversion HLF as [|? ? H1 H2']; inversion H2' as [|? ? H2 _]; subst.
    repeat (constructor; [assumption|]).
    apply Forall_map. eapply Forall_impl; [|exact Hps].
    intros p [Hp _]. apply player_fields_lacks; [reflexivity | reflexivity | exact Hp].
  - destruct (header_lines_lack_breaks now) as [_ HCR].
    inversion HCR as [|? ? H1 H2']; inversion H2' as [|? ? H2 _]; subst.
    repeat (constructor; [assumption|]).
    apply Forall_map. eapply Forall_impl; [|exact Hps].
    intros p [_ Hp]. apply player_fields_lacks; [reflexivity | reflexivity | exact Hp].
Qed.

Lemma sorted_app_order (l1 l2 : list Player) :
  StronglySorted desc (l1 ++ l2) ->
  forall p q, In p l1 -> In q l2 -> score q <= score p.
Proof.
  induction l1 as [|x l1 IH]; intros Hss p q Hp Hq; [contradiction|].
  cbn [app] in Hss. inversion Hss as [|? ? Hss' Hall]; subst.
  destruct Hp as [<- | Hp]; [|now apply (IH Hss' p q)].
  rewrite Forall_forall in Hall. apply Hall, in_or_app. now right.
Qed.

(** C9, as stated, fails: add_score accepts a name that holds a line feed,
    and the file saved for that one player has two header lines and two
    further lines, not one. *)
Lemma save_line_per_player_fails :
  ~ (forall now lb text,
       disk (save_leaderboard now lb) = Some text ->
       length (readlines text) = (2 + length (get_top_players 10 lb))%nat).
Proof.
  intros H.
  specialize (H (mkDatetime 2024 5 17 9 30 0) linefeed_board _ eq_refl).
  vm_compute in H. discriminate.
Qed.

(** C9, amended: save_leaderboard replaces the text of the file, whatever it
    was, by the two header lines followed by one record
    name|current_score|games_played|best_score|history_csv, ended by a line
    feed, for each of the top 10 players by current score and for no other
    player: min(10, number of players) records in descending score order,
    no player left out having a higher score than a player written.  When
    no name among those players holds a line feed or a carriage return, the
    file read back has exactly these lines, one per player.  The collection
    in memory is unchanged. *)
Theorem save_leaderboard_lines (now : datetime) (lb : Leaderboard) :
  let top := get_top_players 10 lb in
  let record := fun p =>
    name p ++ S_ "|" ++ str_of_Z (score p) ++ S_ "|" ++
    str_of_Z (games_played p) ++ S_ "|" ++ str_of_Z (best_score p) ++ S_ "|" ++
    join (S_ ",") (map str_of_Z (score_history p)) ++ [LF] in
  let lines :=
    [S_ "Leaderboard - Updated: " ++ strftime now ++ [LF];
     repeat "="%char 60 ++ [LF]] ++ map record top in
  disk (save_leaderboard now lb) = Some (concat lines) /\
  (Forall (fun p => one_line (name p)) top ->
   option_map readlines (disk (save_leaderboard now lb)) = Some lines) /\
  length top = Nat.min 10 (length (players lb)) /\
  StronglySorted desc top /\
  (exists beyond,
     Permutation (dict_values (players lb)) (top ++ beyond) /\
     forall p q, In p top -> In q beyond -> score q <= score p) /\
  players (save_leaderboard now lb) = players lb /\
  (forall d, disk (save_leaderboard now {| players := players lb; disk := d |})
             = disk (save_leaderboard now lb)).
Proof.
  intros top record lines.
  assert (Hrecord : map record top = map player_line top).
  { apply map_ext. intros p. unfold record, player_line, player_fields.
    now rewrite <- !app_assoc. }
  assert (Hlines : lines = add_LF (header_line1 now) :: add_LF header_line2 ::
                           map player_line top).
  { unfold lines. rewrite Hrecord. unfold add_LF, header_line1, header_line2.
    cbn [app]. now rewrite <- app_assoc. }
  split.
  { unfold save_leaderboard. cbn [disk]. fold top. f_equal.
    rewrite Hlines, file_text_lines. cbn [map concat].
    now rewrite map_map. }
  split.
  { intros Hnames. unfold save_leaderboard. cbn [disk option_map]. fold top.
    now rewrite readlines_file_text, Hlines. }
  split; [apply top_ten_length|].
  split; [apply top_sorted|].
  split.
  { destruct (top_in_sorted 10 lb) as (beyond & Hsorted). fold top in Hsorted.
    exists beyond. split.
    - rewrite <- Hsorted. apply sorted_desc_perm.
    - apply sorted_app_order. rewrite <- Hsorted. apply sorted_desc_sorted. }
  split; reflexivity.
Qed.

Lemma save_leaderboard_lines_witness :
  let t := mkDatetime 2024 5 17 9 31 0 in
  option_map readlines (disk (save_leaderboard t sample_board)) =
  Some [S_ "Leaderboard - Updated: 2024-05-17 09:31:00" ++ [LF];
        repeat "="%char 60 ++ [LF];
        S_ "Bob|200|1|200|200" ++ [LF];
        S_ "Alice|50|2|100|100,50" ++ [LF]].
Proof.
  apply (proj1 (proj2 (save_leaderboard_lines (mkDatetime 2024 5 17 9 31 0)
                         sample_board))).
  vm_compute. repeat constructor.
Defined.
